(** * django-musette: moderation gate and notification fan-out

    A shallow embedding of the request handlers of [musette/views.py] that
    create topics and comments, delete comments and mark notifications as
    viewed, together with the template filter [get_pending_notifications] of
    [musette/templatetags/forum_tags.py].

    The handlers are written in a small state-and-exception monad over a
    [World] that holds the database tables the handlers touch, the messages
    handed to the mail transport, the messages published on the broker and
    the flash messages of the request.  The database runs in Django's default
    autocommit mode: every [save], [update] and [delete] is durable as soon as
    it returns, also when the handler raises afterwards. *)

From Stdlib Require Import List ZArith String Ascii Bool Lia DecimalString.
Import ListNotations.

Local Open Scope Z_scope.
Local Open Scope string_scope.
Local Open Scope list_scope.

(** ** Data model *)

(** [django.contrib.auth.models.User], the fields the handlers read. *)
Record User : Type := mkUser {
  user_id : Z;
  username : string;
  email : string
}.

(** [models.Forum]: [moderators] is the many-to-many relation read through
    [forum.moderators.all()]. *)
Record Forum : Type := mkForum {
  idforum : Z;
  forum_name : string;
  is_moderate : bool;
  moderators : list User
}.

(** [models.Topic], with the fields [NewTopicView.post] assigns. *)
Record Topic : Type := mkTopic {
  idtopic : Z;
  topic_forum : Z;
  topic_user : User;
  title : string;
  slug : string;
  topic_date : Z;
  moderate : bool;
  id_attachment : option string;
  attachment : option string
}.

(** [models.Comment]. *)
Record Comment : Type := mkComment {
  idcomment : Z;
  topic_id : Z;
  comment_user : User;
  description : string;
  comment_date : Z
}.

(** [models.Notification]: [idobject] is a plain integer, not a foreign key;
    [is_topic] and [is_comment] say which table it points into. *)
Record Notification : Type := mkNotification {
  iduser : Z;
  is_view : bool;
  idobject : Z;
  date : Z;
  is_topic : bool;
  is_comment : bool
}.

(** One call of [send_mail] that reached the mail transport. *)
Record Mail : Type := mkMail {
  mail_subject : string;
  mail_message : string;
  mail_from : string;
  mail_to : list string
}.

(** The dictionary [data] that [NewCommentView.post] serialises and
    publishes; the keys are those of the source. *)
Record Payload : Type := mkPayload {
  p_description : string;
  p_topic : string;
  p_idtopic : Z;
  p_slug : string;
  p_settings_static : string;
  p_username : string;
  p_forum : string;
  p_lista_us : list Z;
  p_photo : string
}.

Inductive Level : Type := SUCCESS | ERROR.

Inductive HttpResponse : Type :=
| HttpResponseRedirect (url : string)
| Render (template_name : string)
| HttpResponseText (content : string).

(** The exceptions that can leave a handler. *)
Inductive exn : Type :=
| Http404
| SMTPException
| ConnectionError.

(** [django.conf.settings], and the collaborators outside this repository's
    sources: the mail transport, the broker and a few pure helpers. *)
Record Env : Type := mkEnv {
  SITE_URL : string;
  SITE_NAME : string;
  EMAIL_MUSETTE : string;
  STATIC_URL : string;
  smtp_ok : Mail -> bool;
  broker_up : bool;
  get_photo_profile : Z -> string;
  conditional_escape : string -> string;
  slugify : string -> string
}.

Record World : Type := mkWorld {
  forums : list Forum;
  topics : list Topic;
  comments : list Comment;
  notifications : list Notification;
  topic_seq : Z;
  comment_seq : Z;
  mail_attempts : list Mail;
  published : list (string * Payload);
  flash : list (Level * string)
}.

Definition set_topics (f : list Topic -> list Topic) (w : World) : World :=
  mkWorld (forums w) (f (topics w)) (comments w) (notifications w)
          (topic_seq w) (comment_seq w) (mail_attempts w) (published w) (flash w).

Definition set_comments (f : list Comment -> list Comment) (w : World) : World :=
  mkWorld (forums w) (topics w) (f (comments w)) (notifications w)
          (topic_seq w) (comment_seq w) (mail_attempts w) (published w) (flash w).

Definition set_notifications (f : list Notification -> list Notification)
    (w : World) : World :=
  mkWorld (forums w) (topics w) (comments w) (f (notifications w))
          (topic_seq w) (comment_seq w) (mail_attempts w) (published w) (flash w).

Definition set_topic_seq (f : Z -> Z) (w : World) : World :=
  mkWorld (forums w) (topics w) (comments w) (notifications w)
          (f (topic_seq w)) (comment_seq w) (mail_attempts w) (published w) (flash w).

Definition set_comment_seq (f : Z -> Z) (w : World) : World :=
  mkWorld (forums w) (topics w) (comments w) (notifications w)
          (topic_seq w) (f (comment_seq w)) (mail_attempts w) (published w) (flash w).

Definition set_mail_attempts (f : list Mail -> list Mail) (w : World) : World :=
  mkWorld (forums w) (topics w) (comments w) (notifications w)
          (topic_seq w) (comment_seq w) (f (mail_attempts w)) (published w) (flash w).

Definition set_published (f : list (string * Payload) -> list (string * Payload))
    (w : World) : World :=
  mkWorld (forums w) (topics w) (comments w) (notifications w)
          (topic_seq w) (comment_seq w) (mail_attempts w) (f (published w)) (flash w).

Definition set_flash (f : list (Level * string) -> list (Level * string))
    (w : World) : World :=
  mkWorld (forums w) (topics w) (comments w) (notifications w)
          (topic_seq w) (comment_seq w) (mail_attempts w) (published w) (f (flash w)).

(** ** The handler monad: state passing with exceptions *)

Inductive result (A : Type) : Type :=
| Return (a : A)
| Raise (e : exn).

Arguments Return {A} a.
Arguments Raise {A} e.

Definition M (A : Type) : Type := World -> result A * World.

Definition ret {A} (a : A) : M A := fun w => (Return a, w).

Definition raise {A} (e : exn) : M A := fun w => (Raise e, w).

Definition bind {A B} (m : M A) (k : A -> M B) : M B :=
  fun w => match m w with
           | (Return a, w') => k a w'
           | (Raise e, w') => (Raise e, w')
           end.

Definition modify (f : World -> World) : M unit := fun w => (Return tt, f w).

Definition gets {A} (f : World -> A) : M A := fun w => (Return (f w), w).

(** [try: body except Exception: handler]. *)
Definition try_except {A} (body : M A) (handler : M A) : M A :=
  fun w => match body w with
           | (Return a, w') => (Return a, w')
           | (Raise _, w') => handler w'
           end.

Declare Scope handler_scope.
Delimit Scope handler_scope with handler.

Notation "x <- m ;; k" := (bind m (fun x => k))
  (at level 100, m at next level, right associativity) : handler_scope.
Notation "m ;; k" := (bind m (fun _ => k))
  (at level 100, right associativity) : handler_scope.

Local Open Scope handler_scope.

(** [for x in l: body(x)]. *)
Fixpoint for_each {A} (l : list A) (body : A -> M unit) : M unit :=
  match l with
  | [] => ret tt
  | x :: l' => body x ;; for_each l' body
  end.

(** ** Python and Django primitives *)

(** Truth value of a string: the empty string is false. *)
Definition truthy (s : string) : bool :=
  match s with
  | EmptyString => false
  | String _ _ => true
  end.

(** [s.endswith(suffix)]. *)
Definition endswith (s suffix : string) : bool :=
  let n := String.length s in
  let m := String.length suffix in
  (m <=? n)%nat && String.eqb (substring (n - m) m s) suffix.

(** [s[:-1]]. *)
Definition drop_last (s : string) : string :=
  substring 0 (String.length s - 1) s.

(** [s[:n]]. *)
Definition take (n : nat) (s : string) : string := substring 0 n s.

(** [str(i)] for an integer. *)
Definition str (i : Z) : string := NilZero.string_of_int (Z.to_int i).

(** [x in l] for a list of integers. *)
Definition mem (x : Z) (l : list Z) : bool := existsb (Z.eqb x) l.

(** [user in queryset]: model instances compare by primary key. *)
Definition user_in (u : User) (l : list User) : bool :=
  existsb (fun m => Z.eqb (user_id m) (user_id u)) l.

(** [messages.success] and [messages.error]. *)
Definition messages_success (text : string) : M unit :=
  modify (set_flash (fun l => l ++ [(SUCCESS, text)])).

Definition messages_error (text : string) : M unit :=
  modify (set_flash (fun l => l ++ [(ERROR, text)])).

(** [get_object_or_404(models.Forum, name=name)]. *)
Definition get_forum_or_404 (name : string) : M Forum :=
  fun w => match find (fun f => String.eqb (forum_name f) name) (forums w) with
           | Some f => (Return f, w)
           | None => (Raise Http404, w)
           end.

(** [get_object_or_404(models.Topic, idtopic=id)]. *)
Definition get_topic_or_404 (id : Z) : M Topic :=
  fun w => match find (fun t => Z.eqb (idtopic t) id) (topics w) with
           | Some t => (Return t, w)
           | None => (Raise Http404, w)
           end.

(** [Truncator(text).chars(num)] of [django.utils.text], for text without
    combining characters and with the default truncation text
    ['%(truncated_text)s...']: a text of at most [num] characters is returned
    as it is; a longer one is cut to the [num] minus three characters that
    leave room for the marker, wherever that falls, and the marker is
    appended. *)
Definition truncation_marker : string := "...".

Definition Truncator_chars (text : string) (num : nat) : string :=
  let truncate_len := (num - String.length truncation_marker)%nat in
  if (String.length text <=? num)%nat then text
  else (take truncate_len text ++ truncation_marker)%string.

(** Modelled from the spec: [utils.get_users_topic], whose module
    [musette/utils.py] is not among the sources.  The comments of the topic
    are scanned in creation order; the author of each is appended to the
    result when it is not yet there and is not the posting user. *)
Fixpoint scan_users (cs : list Comment) (myuser : Z) (lista_us : list Z)
    : list Z :=
  match cs with
  | [] => lista_us
  | c :: cs' =>
      let u := user_id (comment_user c) in
      if negb (Z.eqb u myuser) && negb (mem u lista_us)
      then scan_users cs' myuser (lista_us ++ [u])
      else scan_users cs' myuser lista_us
  end.

Definition get_users_topic (topic : Topic) (myuser : Z) : M (list Z) :=
  cs <- gets (fun w =>
          filter (fun c => Z.eqb (topic_id c) (idtopic topic)) (comments w)) ;;
  ret (scan_users cs myuser []).

(** ** The handlers *)

Section Handlers.

Variable env : Env.

(** [django.core.mail.send_mail]: with no recipient nothing is handed to the
    transport and 0 is returned; otherwise the transport is tried once, and a
    failure is raised unless [fail_silently]. *)
Definition send_mail (subject message from_email : string)
    (recipient_list : list string) (fail_silently : bool) : M Z :=
  match recipient_list with
  | [] => ret 0
  | _ :: _ =>
      let m := mkMail subject message from_email recipient_list in
      modify (set_mail_attempts (fun l => l ++ [m])) ;;
      if smtp_ok env m then ret 1
      else if fail_silently then ret 0
      else raise SMTPException
  end.

(** [redis.StrictRedis().publish(channel, message)]: the connection is opened
    by the first command, so an unreachable broker raises here. *)
Definition publish (channel : string) (data : Payload) : M unit :=
  if broker_up env
  then modify (set_published (fun l => l ++ [(channel, data)]))
  else raise ConnectionError.

(** The request of [NewTopicView.post]: the user, the posted form and the
    values the handler draws from the clock and the random generator. *)
Record TopicRequest : Type := mkTopicRequest {
  treq_user : User;
  treq_title : string;
  treq_attachment : option string;
  treq_form_valid : bool;
  treq_now : Z;
  treq_random_string : string
}.

(** The e-mail alerts of the moderation branch: the body of
    [for moderator in forum.moderators.all()]. *)
Definition mail_moderator (forum : Forum) (moderator : User) : M unit :=
  let site :=
    if endswith (SITE_URL env) "/"
    then (SITE_URL env ++ "forum/" ++ forum_name forum)%string
    else (SITE_URL env ++ "/forum/" ++ forum_name forum)%string in
  let title_email := ("New notification " ++ SITE_NAME env)%string in
  let message := ("You have one new topic: " ++ site)%string in
  let email_from := EMAIL_MUSETTE env in
  let email_moderator := email moderator in
  if truthy email_from
  then (_ <- send_mail title_email message email_from [email_moderator] false ;;
        ret tt)
  else ret tt.

(** [NewTopicView.post]. *)
Definition NewTopicView_post (request : TopicRequest) (forum : string)
    : M HttpResponse :=
  if treq_form_valid request then
    let now := treq_now request in
    let user := treq_user request in
    forum_obj <- get_forum_or_404 forum ;;
    let title := conditional_escape env (treq_title request) in
    let slug := slugify env (treq_title request) in
    let id_attachment :=
      match treq_attachment request with
      | Some _ => Some (treq_random_string request)
      | None => None
      end in
    moderate <-
      (if is_moderate forum_obj then
         if user_in user (moderators forum_obj) then ret true
         else (for_each (moderators forum_obj) (mail_moderator forum_obj) ;;
               ret false)
       else ret true) ;;
    id <- gets topic_seq ;;
    modify (set_topic_seq Z.succ) ;;
    modify (set_topics (fun l =>
      l ++ [mkTopic id (idforum forum_obj) user title slug now moderate
                    id_attachment (treq_attachment request)])) ;;
    messages_success
      ("The topic '" ++ title ++ "' was successfully created")%string ;;
    ret (HttpResponseRedirect ("/forum/" ++ forum)%string)
  else
    (messages_error "Form invalid" ;;
     ret (Render "musette/new_topic.html")).

(** The request of [NewCommentView.post]. *)
Record CommentRequest : Type := mkCommentRequest {
  creq_user : User;
  creq_description : string;
  creq_form_valid : bool;
  creq_now : Z
}.

(** [models.Notification(...).save()]. *)
Definition save_notification (n : Notification) : M unit :=
  modify (set_notifications (fun l => l ++ [n])).

(** [NewCommentView.post]. *)
Definition NewCommentView_post (request : CommentRequest)
    (forum slug_arg : string) (idtopic_arg : Z) : M HttpResponse :=
  let url := ("/topic/" ++ forum ++ "/" ++ slug_arg ++ "/"
                ++ str idtopic_arg ++ "/")%string in
  if creq_form_valid request then
    let now := creq_now request in
    let user := creq_user request in
    topic <- get_topic_or_404 idtopic_arg ;;
    idcomment_new <- gets comment_seq ;;
    modify (set_comment_seq Z.succ) ;;
    let comment :=
      mkComment idcomment_new (idtopic topic) user
                (creq_description request) now in
    modify (set_comments (fun l => l ++ [comment])) ;;
    let username_ := username user in
    let photo := get_photo_profile env (user_id user) in
    let description_ := Truncator_chars (description comment) 100 in
    lista_us0 <- get_users_topic topic (user_id user) ;;
    let user_email := email (topic_user topic) in
    let '(lista_us, lista_email, user_original_topic) :=
      if negb (mem (user_id (topic_user topic)) lista_us0)
      then (lista_us0 ++ [user_id (topic_user topic)], [user_email],
            Some (user_id (topic_user topic)))
      else (lista_us0, [], None) in
    for_each lista_us (fun u =>
      if negb (match user_original_topic with
               | Some o => Z.eqb o (user_id user)
               | None => false
               end)
      then save_notification
             (mkNotification u false idcomment_new now false true)
      else ret tt) ;;
    let site :=
      if endswith (SITE_URL env) "/" then drop_last (SITE_URL env)
      else SITE_URL env in
    let title_email := ("New notification " ++ SITE_NAME env)%string in
    let message :=
      ("You have one new comment in the topic: " ++ site ++ url)%string in
    let email_from := EMAIL_MUSETTE env in
    (if truthy email_from
     then (_ <- send_mail title_email message email_from lista_email false ;;
           ret tt)
     else ret tt) ;;
    let data :=
      mkPayload description_ (title topic) (idtopic topic) (slug topic)
                (STATIC_URL env) username_ forum lista_us photo in
    publish "notifications" data ;;
    messages_success "Added new comment" ;;
    ret (HttpResponseRedirect url)
  else
    (messages_error "Field required" ;;
     ret (HttpResponseRedirect url)).

(** [DeleteCommentView.post]: [iduser] is [request.user.id]. *)
Definition DeleteCommentView_post (iduser_req : Z) (forum slug_arg : string)
    (idtopic_arg idcomment_arg : Z) : M HttpResponse :=
  let url := ("/topic/" ++ forum ++ "/" ++ slug_arg ++ "/"
                ++ str idtopic_arg ++ "/")%string in
  try_except
    (modify (set_comments (filter (fun c =>
       negb (Z.eqb (idcomment c) idcomment_arg
             && Z.eqb (user_id (comment_user c)) iduser_req)))) ;;
     modify (set_notifications (filter (fun n =>
       negb (Z.eqb (idobject n) idcomment_arg)))) ;;
     messages_success "Comment deleted" ;;
     ret (HttpResponseRedirect url))
    (ret (HttpResponseRedirect url)).

End Handlers.

(** [queryset.filter(iduser=iduser).update(is_view=True)]. *)
Definition mark_viewed (iduser_req : Z) (n : Notification) : Notification :=
  if Z.eqb (iduser n) iduser_req
  then mkNotification (iduser n) true (idobject n) (date n)
                      (is_topic n) (is_comment n)
  else n.

(** [SetNotifications]: [iduser] is [request.user.id]. *)
Definition SetNotifications (iduser_req : Z) : M HttpResponse :=
  modify (set_notifications (map (mark_viewed iduser_req))) ;;
  ret (HttpResponseText "Ok").

(** The filter [get_pending_notifications] of [forum_tags.py]. *)
Definition get_pending_notifications (user : Z) : M nat :=
  gets (fun w => List.length (filter (fun n =>
          negb (is_view n) && Z.eqb (iduser n) user) (notifications w))).

(** ** The stages of a comment-create request

    The values [NewCommentView.post] computes on its way, as functions of the
    request and of the world it starts in. *)

Section CommentStages.

Variable env : Env.
Variable request : CommentRequest.
Variables forum slug_arg : string.
Variable topic : Topic.
Variable w : World.

Definition poster : Z := user_id (creq_user request).

Definition author : Z := user_id (topic_user topic).

(** What [utils.get_users_topic] returns to the handler. *)
Definition resolved : list Z :=
  scan_users
    (filter (fun c => Z.eqb (topic_id c) (idtopic topic)) (comments w))
    poster [].

(** Whether the branch [if not (user_original_topic in lista_us)] is taken. *)
Definition author_added : bool := negb (mem author resolved).

(** [lista_us] and [lista_email] after that branch. *)
Definition recipients : list Z :=
  if author_added then resolved ++ [author] else resolved.

Definition email_recipients : list string :=
  if author_added then [email (topic_user topic)] else [].

(** The row the loop saves for the recipient [u]. *)
Definition row_for (u : Z) : Notification :=
  mkNotification u false (comment_seq w) (creq_now request) false true.

(** The guard of the loop, [user_original_topic != request.user.id]. *)
Definition loop_guard : bool := negb (author_added && Z.eqb author poster).

Definition rows_written : list Notification :=
  if loop_guard then map row_for recipients else [].

Definition comment_saved : Comment :=
  mkComment (comment_seq w) (idtopic topic) (creq_user request)
            (creq_description request) (creq_now request).

Definition comment_url : string :=
  ("/topic/" ++ forum ++ "/" ++ slug_arg ++ "/" ++ str (idtopic topic) ++ "/")%string.

Definition comment_mail : Mail :=
  mkMail ("New notification " ++ SITE_NAME env)%string
         ("You have one new comment in the topic: "
            ++ (if endswith (SITE_URL env) "/" then drop_last (SITE_URL env)
                else SITE_URL env)
            ++ comment_url)%string
         (EMAIL_MUSETTE env) email_recipients.

Definition comment_payload : Payload :=
  mkPayload (Truncator_chars (creq_description request) 100)
            (title topic) (idtopic topic) (slug topic) (STATIC_URL env)
            (username (creq_user request)) forum recipients
            (get_photo_profile env (user_id (creq_user request))).

(** The world once the comment and the notification rows are written. *)
Definition world_written : World :=
  set_notifications (fun n => n ++ rows_written)
    (set_comments (fun l => l ++ [comment_saved])
       (set_comment_seq Z.succ w)).

(** The e-mail and publish stages, as they stand at the end of the handler. *)
Definition delivery : M HttpResponse :=
  (if truthy (EMAIL_MUSETTE env)
   then (_ <- send_mail env (mail_subject comment_mail)
                (mail_message comment_mail) (EMAIL_MUSETTE env)
                email_recipients false ;;
         ret tt)
   else ret tt) ;;
  publish env "notifications" comment_payload ;;
  messages_success "Added new comment" ;;
  ret (HttpResponseRedirect comment_url).

End CommentStages.

(** Whether the handler hands a message to the mail transport: a sender
    address is configured and [lista_email] is not empty. *)
Definition mail_called (env : Env) (request : CommentRequest) (topic : Topic)
    (w : World) : bool :=
  truthy (EMAIL_MUSETTE env) && author_added request topic w.


(** ** The stages of a topic-create request *)

(** The message [NewTopicView.post] hands to the transport for one
    moderator. *)
Definition moderator_mail (env : Env) (forum : Forum) (moderator : User)
    : Mail :=
  mkMail ("New notification " ++ SITE_NAME env)%string
         ("You have one new topic: "
            ++ (if endswith (SITE_URL env) "/"
                then SITE_URL env ++ "forum/" ++ forum_name forum
                else SITE_URL env ++ "/forum/" ++ forum_name forum))%string
         (EMAIL_MUSETTE env) [email moderator].

(** The row [obj.save()] inserts. *)
Definition topic_saved (env : Env) (request : TopicRequest) (forum : Forum)
    (w : World) (approved : bool) : Topic :=
  mkTopic (topic_seq w) (idforum forum) (treq_user request)
          (conditional_escape env (treq_title request))
          (slugify env (treq_title request)) (treq_now request) approved
          (match treq_attachment request with
           | Some _ => Some (treq_random_string request)
           | None => None
           end)
          (treq_attachment request).

(** The world once the topic is saved and the success message is flashed. *)
Definition topic_done (env : Env) (request : TopicRequest) (forum : Forum)
    (approved : bool) (w0 w : World) : World :=
  set_flash (fun l => l ++ [(SUCCESS,
      ("The topic '" ++ conditional_escape env (treq_title request)
         ++ "' was successfully created")%string)])
    (set_topics (fun l => l ++ [topic_saved env request forum w0 approved])
       (set_topic_seq Z.succ w)).

(** ** Observations on a run *)

(** The rows, messages and topics a run added to the world it started in. *)
Definition rows_added (w w' : World) : list Notification :=
  skipn (List.length (notifications w)) (notifications w').

Definition mails_added (w w' : World) : list Mail :=
  skipn (List.length (mail_attempts w)) (mail_attempts w').

Definition payloads_added (w w' : World) : list Payload :=
  map snd (skipn (List.length (published w)) (published w')).

Definition topics_added (w w' : World) : list Topic :=
  skipn (List.length (topics w)) (topics w').

(** A response that reports success to the user: the redirect that follows
    the success message. *)
Definition reports_success (r : result HttpResponse) (w w' : World) : bool :=
  match r with
  | Return (HttpResponseRedirect _) =>
      existsb (fun m => match fst m with SUCCESS => true | ERROR => false end)
              (skipn (List.length (flash w)) (flash w'))
  | _ => false
  end.

(** ** Word boundaries *)




(** ** The requirements as the design document words them *)

(** A failure to mail one moderator neither stops the attempts for the
    others nor the creation of the topic. *)
Definition mail_failures_isolated (env : Env) (request : TopicRequest)
    (forum : string) (forum_obj : Forum) (w : World) : Prop :=
  let r := fst (NewTopicView_post env request forum w) in
  let w' := snd (NewTopicView_post env request forum w) in
  (forall m, In m (moderators forum_obj) ->
             In (moderator_mail env forum_obj m) (mails_added w w'))
  /\ (exists t, topics_added w w' = [t])
  /\ reports_success r w w' = true.

(** The three cases of the moderation gate. *)
Definition moderation_gate_as_stated (env : Env) (request : TopicRequest)
    (forum : string) (forum_obj : Forum) (w : World) : Prop :=
  let w' := snd (NewTopicView_post env request forum w) in
  let flags := map moderate (topics_added w w') in
  let addressed := map mail_to (mails_added w w') in
  (is_moderate forum_obj = false -> flags = [true] /\ addressed = [])
  /\ (is_moderate forum_obj = true ->
      user_in (treq_user request) (moderators forum_obj) = true ->
      flags = [true] /\ addressed = [])
  /\ (is_moderate forum_obj = true ->
      user_in (treq_user request) (moderators forum_obj) = false ->
      flags = [false]
      /\ addressed = map (fun m => [email m]) (moderators forum_obj)).

(** A failure of the publish call does not reach the caller: the rows are
    written and the response reports success. *)
Definition publish_failure_tolerated (env : Env) (request : CommentRequest)
    (forum slug_arg : string) (id : Z) (topic : Topic) (w : World) : Prop :=
  broker_up env = false ->
  let r := fst (NewCommentView_post env request forum slug_arg id w) in
  let w' := snd (NewCommentView_post env request forum slug_arg id w) in
  rows_added w w' = rows_written request topic w
  /\ reports_success r w w' = true.

(** ** A small forum

    Three users, a moderated forum and a topic, used to run the handlers. *)

Definition alice : User := mkUser 1 "alice" "alice@example.org".
Definition bob : User := mkUser 2 "bob" "bob@example.org".
Definition carol : User := mkUser 3 "carol" "carol@example.org".

Definition site_env : Env :=
  mkEnv "http://forum.example.org/" "Musette" "noreply@example.org"
        "/static/" (fun _ => true) true (fun _ => "/static/img/profile.png")
        (fun s => s) (fun s => s).

(** The transport refuses every message addressed to bob. *)
Definition bob_bounces_env : Env :=
  mkEnv "http://forum.example.org/" "Musette" "noreply@example.org"
        "/static/"
        (fun m => negb (existsb (String.eqb (email bob)) (mail_to m)))
        true (fun _ => "/static/img/profile.png") (fun s => s) (fun s => s).

(** No sender address is configured. *)
Definition no_sender_env : Env :=
  mkEnv "http://forum.example.org/" "Musette" "" "/static/" (fun _ => true)
        true (fun _ => "/static/img/profile.png") (fun s => s) (fun s => s).

(** The broker cannot be reached. *)
Definition broker_down_env : Env :=
  mkEnv "http://forum.example.org/" "Musette" "noreply@example.org"
        "/static/" (fun _ => true) false
        (fun _ => "/static/img/profile.png") (fun s => s) (fun s => s).

Definition general : Forum := mkForum 1 "general" true [bob; carol].

Definition welcome : Topic :=
  mkTopic 7 1 alice "Welcome" "welcome" 10 true None None.

(** The topic of alice without any comment. *)
Definition quiet_world : World :=
  mkWorld [general] [welcome] [] [] 8 1 [] [] [].

(** The topic of alice with one earlier comment, of bob. *)
Definition one_comment_world : World :=
  mkWorld [general] [welcome] [mkComment 1 7 bob "Hello" 20] [] 8 2 [] [] [].

(** The topic of alice with earlier comments of bob and carol. *)
Definition two_comments_world : World :=
  mkWorld [general] [welcome]
          [mkComment 1 7 bob "Hello" 20; mkComment 2 7 carol "Hi" 30]
          [] 8 3 [] [] [].

(** Comment 5 is alice's; a topic notification and a comment notification
    both carry the identifier 5, a third row points at comment 6. *)
Definition colliding_world : World :=
  mkWorld [general] [welcome]
          [mkComment 5 7 alice "Hello" 20; mkComment 6 7 bob "Hi" 30]
          [mkNotification 2 false 5 15 true false;
           mkNotification 3 false 5 25 false true;
           mkNotification 1 false 6 35 false true]
          8 7 [] [] [].


(** * Further handlers and template filters *)

(** [EditCommentView.post]: [update_description] is
    [request.POST.get('update_description')], [None] when the key is
    missing; [iduser_req] is [request.user.id]. *)
Definition set_description (d : string) (c : Comment) : Comment :=
  mkComment (idcomment c) (topic_id c) (comment_user c) d (comment_date c).

Definition EditCommentView_post (iduser_req : Z)
    (update_description : option string) (forum slug_arg : string)
    (idtopic_arg idcomment_arg : Z) : M HttpResponse :=
  let url := ("/topic/" ++ forum ++ "/" ++ slug_arg ++ "/"
                ++ str idtopic_arg ++ "/")%string in
  match update_description with
  | Some d =>
      if truthy d then
        modify (set_comments (map (fun c =>
          if Z.eqb (idcomment c) idcomment_arg
             && Z.eqb (user_id (comment_user c)) iduser_req
          then set_description d c else c))) ;;
        messages_success "Comment edited" ;;
        ret (HttpResponseRedirect url)
      else ret (HttpResponseRedirect url)
  | None => ret (HttpResponseRedirect url)
  end.

(** The filter [get_tot_comments] of [forum_tags.py]. *)
Definition get_tot_comments (idtopic_arg : Z) : M nat :=
  gets (fun w => List.length
          (filter (fun c => Z.eqb (topic_id c) idtopic_arg) (comments w))).

Section Collaborators.

(** Helpers of [musette/utils.py] and rules of [musette/models.py], neither
    among the sources: any computation may stand for them. *)
Variable remove_folder_attachment : Z -> M unit.

(** What deleting a topic does to the rows of other tables that reference
    it, as the [on_delete] rules of the models prescribe. *)
Variable delete_related_to_topic : Z -> M unit.

(** [utils.get_notifications]. *)
Variable get_notifications : Z -> M (list Notification).

(** [reverse('forum', args=[forum])], fixed by the URL configuration. *)
Variable reverse_forum : string -> string.

(** [get_object_or_404(models.Topic, idtopic=id, user_id=iduser)]. *)
Definition get_own_topic_or_404 (id iduser_req : Z) : M Topic :=
  fun w => match find (fun t => Z.eqb (idtopic t) id
                                && Z.eqb (user_id (topic_user t)) iduser_req)
                      (topics w) with
           | Some t => (Return t, w)
           | None => (Raise Http404, w)
           end.

(** [DeleteTopicView.get]. *)
Definition DeleteTopicView_get (iduser_req : Z) (forum : string)
    (idtopic_arg : Z) : M HttpResponse :=
  topic <- get_own_topic_or_404 idtopic_arg iduser_req ;;
  let iduser_topic := user_id (topic_user topic) in
  let title_topic := title topic in
  (if Z.eqb iduser_req iduser_topic then
     remove_folder_attachment idtopic_arg ;;
     delete_related_to_topic idtopic_arg ;;
     modify (set_topics (filter (fun t =>
       negb (Z.eqb (idtopic t) idtopic_arg
             && Z.eqb (user_id (topic_user t)) iduser_topic)))) ;;
     messages_success
       ("The topic '" ++ title_topic ++ "' was successfully deleted")%string
   else raise Http404) ;;
  ret (HttpResponseRedirect (reverse_forum forum)).

(** [AllNotification.get]; [is_ajax] is [request.is_ajax()]. *)
Definition AllNotification_get (iduser_req : Z) (is_ajax : bool)
    : M HttpResponse :=
  let template_name := "musette/all_notification_index.html" in
  let page_template := "musette/all_notification.html" in
  modify (set_notifications (map (mark_viewed iduser_req))) ;;
  _ <- get_notifications iduser_req ;;
  let template_name := if is_ajax then page_template else template_name in
  ret (Render template_name).

End Collaborators.

(** ** Forum membership *)

(** [models.Register]. *)
Record Register : Type := mkRegister {
  register_forum_id : Z;
  register_user_id : Z;
  register_date : Z
}.

(** The world with the table of registers and the column [hidden] of
    [models.Forum], read by primary key. *)
Record Board : Type := mkBoard {
  board_world : World;
  registers : list Register;
  forum_hidden : Z -> bool
}.

(** [get_object_or_404(models.Forum, name=name, hidden=False)]. *)
Definition get_visible_forum (name : string) (b : Board) : option Forum :=
  find (fun f => String.eqb (forum_name f) name
                 && negb (forum_hidden b (idforum f)))
       (forums (board_world b)).

(** [AddRegisterView.post]: [register.save()] inserts the row. *)
Definition AddRegisterView_post (iduser_req : Z) (now : Z) (forum : string)
    (b : Board) : result HttpResponse * Board :=
  let url := ("/forum/" ++ forum ++ "/")%string in
  match get_visible_forum forum b with
  | None => (Raise Http404, b)
  | Some forum_obj =>
      (Return (HttpResponseRedirect url),
       mkBoard
         (set_flash (fun l => l ++ [(SUCCESS, "You have successfully registered")])
            (board_world b))
         (registers b ++ [mkRegister (idforum forum_obj) iduser_req now])
         (forum_hidden b))
  end.

(** [UnregisterView.post]. *)
Definition UnregisterView_post (iduser_req : Z) (forum : string) (b : Board)
    : result HttpResponse * Board :=
  let url := ("/forum/" ++ forum ++ "/")%string in
  match get_visible_forum forum b with
  | None => (Raise Http404, b)
  | Some forum_obj =>
      (Return (HttpResponseRedirect url),
       mkBoard
         (set_flash
            (fun l => l ++ [(SUCCESS, "Registration was successfully canceled")])
            (board_world b))
         (filter (fun r =>
            negb (Z.eqb (register_forum_id r) (idforum forum_obj)
                  && Z.eqb (register_user_id r) iduser_req))
            (registers b))
         (forum_hidden b))
  end.

(** [forum.register_forums.all()]. *)
Definition register_forums (forum : Forum) (b : Board) : list Register :=
  filter (fun r => Z.eqb (register_forum_id r) (idforum forum)) (registers b).

(** The list [users] that [UsersForumView.get] hands to its template:
    [list(chain(registers, forum.moderators.all()))]. *)
Definition UsersForumView_users (forum : string) (b : Board)
    : result (list (Register + User)) :=
  match get_visible_forum forum b with
  | None => Raise Http404
  | Some forum_obj =>
      Return (map inl (register_forums forum_obj b)
              ++ map inr (moderators forum_obj))
  end.

(** The filter [get_tot_users_forum] of [forum_tags.py]. *)
Definition get_tot_users_forum (forum : Forum) (b : Board) : nat :=
  let users_registers := List.length (register_forums forum b) in
  let moderators_ := List.length (moderators forum) in
  (users_registers + moderators_)%nat.

(** Whether the user has a register on the forum. *)
Definition registered (idforum_ iduser_ : Z) (b : Board) : bool :=
  existsb (fun r => Z.eqb (register_forum_id r) idforum_
                    && Z.eqb (register_user_id r) iduser_)
          (registers b).

(** ** Rendering a notification *)

(** The lookups of [get_item_notification] that can fail. *)
Inductive DoesNotExist : Type :=
| Comment_DoesNotExist
| Topic_DoesNotExist
| Forum_DoesNotExist.

(** What a call of the filter comes to: the HTML it returns, or the
    exception that leaves it. *)
Inductive Rendered : Type :=
| Html (html : string)
| Escapes (e : DoesNotExist).

(** The double quote, which the HTML of the filter is full of. *)
Definition dq : string := String "034" EmptyString.

(** The HTML the filter builds once the target is resolved. *)
Definition item_html (url_topic title_ photo date_ username_ : string)
    : string :=
  let title_ := ("<h5><a href='" ++ url_topic ++ "'><u>" ++ title_
                   ++ "</u></a></h5>")%string in
  let url_profile := ("/profile/" ++ username_)%string in
  ("<a class=" ++ dq ++ "content" ++ dq ++ " href=" ++ dq ++ url_topic ++ dq ++ ">"
   ++ " <h4 class=" ++ dq ++ "item-title" ++ dq ++ ">"
   ++ " <img class=" ++ dq ++ "img-circle pull-left" ++ dq
   ++ " src=" ++ dq ++ photo ++ dq
   ++ " width=45 height=45 />"
   ++ title_ ++ "</h4>"
   ++ " <p class=" ++ dq ++ "item-info" ++ dq ++ "><a href=" ++ dq
   ++ url_profile ++ dq ++ ">"
   ++ username_ ++ "</a> - " ++ date_
   ++ "</p></a>")%string.

Section Rendering.

Variable env : Env.

(** [str(utils.get_datetime_topic(date))]; the helper is not among the
    sources. *)
Variable get_datetime_topic : Z -> string.

Variable w : World.

(** [Comment.objects.get(idcomment=id)], [Topic.objects.get(idtopic=id)] and
    the forum a topic points at. *)
Definition get_comment (id : Z) : option Comment :=
  find (fun c => Z.eqb (idcomment c) id) (comments w).

Definition get_topic (id : Z) : option Topic :=
  find (fun t => Z.eqb (idtopic t) id) (topics w).

Definition get_forum (id : Z) : option Forum :=
  find (fun f => Z.eqb (idforum f) id) (forums w).

(** The last part of the [try] block, from [url_topic] on, for a topic and
    the user the notification names. *)
Definition render_for (n : Notification) (topic : Topic) (user : User)
    : Rendered :=
  match get_forum (topic_forum topic) with
  | None => Escapes Forum_DoesNotExist
  | Some forum =>
      let url_topic := ("/topic/" ++ forum_name forum ++ "/" ++ slug topic
                          ++ "/" ++ str (idtopic topic) ++ "/")%string in
      Html (item_html url_topic (title topic)
              (get_photo_profile env (user_id user))
              (get_datetime_topic (date n)) (username user))
  end.

(** The filter [get_item_notification] of [forum_tags.py]. *)
Definition get_item_notification (n : Notification) : Rendered :=
  let attempt :=
    if is_comment n then
      match get_comment (idobject n) with
      | None => Escapes Comment_DoesNotExist
      | Some comment =>
          match get_topic (topic_id comment) with
          | None => Escapes Topic_DoesNotExist
          | Some topic => render_for n topic (comment_user comment)
          end
      end
    else
      match get_topic (idobject n) with
      | None => Escapes Topic_DoesNotExist
      | Some topic => render_for n topic (topic_user topic)
      end in
  match attempt with
  | Escapes Comment_DoesNotExist => Html ""
  | r => r
  end.

End Rendering.

(** The settings with another [SITE_URL]. *)
Definition with_site_url (url : string) (env : Env) : Env :=
  mkEnv url (SITE_NAME env) (EMAIL_MUSETTE env) (STATIC_URL env) (smtp_ok env)
        (broker_up env) (get_photo_profile env) (conditional_escape env)
        (slugify env).


(** ** The strip of commenters of a topic *)

(** The filter [get_photo] of [templatetags/photo.py]. *)
Definition get_photo (env : Env) (user : Z) : string :=
  let field_photo := get_photo_profile env user in
  field_photo.

(** The loop of [get_tot_users_comments]: [lista] holds the user names
    already shown, [data] the HTML so far. *)
Fixpoint users_comments_loop (env : Env) (users : list Comment)
    (lista : list string) (data : string) : list string * string :=
  match users with
  | [] => (lista, data)
  | user :: users' =>
      let usuario := username (comment_user user) in
      if negb (existsb (String.eqb usuario) lista) then
        let lista := lista ++ [usuario] in
        let photo := get_photo env (user_id (comment_user user)) in
        let tooltip := ("data-toggle='tooltip' data-placement='bottom' "
                          ++ "title='" ++ usuario ++ "'")%string in
        let data := (data ++ "<a href='/profile/" ++ usuario ++ "' "
                       ++ tooltip ++ ">")%string in
        let data := (data ++ "<img class='img-circle' src='" ++ photo
                       ++ "' ")%string in
        let data := (data ++ "width=30, height=30></a>")%string in
        users_comments_loop env users' lista data
      else users_comments_loop env users' lista data
  end.

(** The filter [get_tot_users_comments] of [forum_tags.py]. *)
Definition get_tot_users_comments (env : Env) (topic : Topic) (w : World)
    : string :=
  let users :=
    filter (fun c => Z.eqb (topic_id c) (idtopic topic)) (comments w) in
  let data := snd (users_comments_loop env users [] "") in
  if Nat.eqb (List.length users) 0 then
    let usuario := username (topic_user topic) in
    let iduser_ := user_id (topic_user topic) in
    let photo := get_photo env iduser_ in
    let data := (data ++ "<a href='/profile/" ++ usuario ++ "'>")%string in
    let data := (data ++ "<img class='img-circle' src='" ++ photo
                   ++ "' ")%string in
    (data ++ "width=30, height=30></a>")%string
  else data.
(** * Properties *)

(** ** Lists of recipients *)

Lemma mem_In (x : Z) (l : list Z) : mem x l = true <-> In x l.
Proof.
  unfold mem. rewrite existsb_exists. split.
  - intros [y [Hy Heq]]. apply Z.eqb_eq in Heq. now subst.
  - intros H. exists x. split; [assumption | apply Z.eqb_refl].
Qed.

Lemma mem_false_In (x : Z) (l : list Z) : mem x l = false <-> ~ In x l.
Proof.
  rewrite <- mem_In. destruct (mem x l); split; congruence.
Qed.

(** The scan keeps what the accumulator holds and adds only authors of the
    scanned comments other than the posting user. *)
Lemma scan_users_In (cs : list Comment) (myuser : Z) :
  forall acc u,
    In u (scan_users cs myuser acc) <->
    In u acc \/ (u <> myuser /\ In u (map (fun c => user_id (comment_user c)) cs)).
Proof.
  induction cs as [|c cs IH]; intros acc u; simpl.
  - tauto.
  - destruct (Z.eqb_spec (user_id (comment_user c)) myuser) as [He|Hne]; simpl.
    + rewrite IH. split; [tauto|].
      intros [H|[Hu [H|H]]]; [tauto| congruence | tauto].
    + destruct (mem (user_id (comment_user c)) acc) eqn:Hm; simpl; rewrite IH.
      * apply mem_In in Hm. split; [tauto|].
        intros [H|[Hu [H|H]]]; [tauto| subst; tauto | tauto].
      * rewrite in_app_iff. simpl. split.
        -- intros [[H|[H|[]]]|H]; [tauto| subst; tauto | tauto].
        -- intros [H|[Hu [H|H]]]; tauto.
Qed.

Lemma NoDup_snoc {A} (l : list A) (x : A) :
  NoDup l -> ~ In x l -> NoDup (l ++ [x]).
Proof.
  intros Hl Hx. induction Hl as [|y l Hy Hl IH]; simpl.
  - constructor; [tauto | constructor].
  - constructor.
    + rewrite in_app_iff. simpl in *. intros [H|[H|[]]]; [tauto | subst; tauto].
    + apply IH. simpl in Hx. tauto.
Qed.

Lemma scan_users_NoDup (cs : list Comment) (myuser : Z) :
  forall acc, NoDup acc -> NoDup (scan_users cs myuser acc).
Proof.
  induction cs as [|c cs IH]; intros acc Hacc; simpl; [assumption|].
  destruct (negb (Z.eqb (user_id (comment_user c)) myuser)
            && negb (mem (user_id (comment_user c)) acc)) eqn:Hg.
  - apply IH. apply andb_true_iff in Hg as [_ Hm].
    apply negb_true_iff, mem_false_In in Hm.
    now apply NoDup_snoc.
  - now apply IH.
Qed.

(** A comment of the posting user at the end of the scan adds nothing. *)
Lemma scan_users_own_last (cs : list Comment) (c : Comment) (myuser : Z) :
  user_id (comment_user c) = myuser ->
  forall acc, scan_users (cs ++ [c]) myuser acc = scan_users cs myuser acc.
Proof.
  intros Hc. induction cs as [|c' cs IH]; intros acc; simpl.
  - rewrite Hc, Z.eqb_refl. reflexivity.
  - destruct (negb _ && negb _); apply IH.
Qed.

(** ** Loops of the handlers *)

(** The notification loop of [NewCommentView.post]: its guard does not
    depend on the loop variable, so the loop writes a row for every element
    or for none. *)
Lemma for_each_guarded_save (guard : bool) (f : Z -> Notification) :
  forall (l : list Z) (w : World),
    for_each l (fun u => if guard then save_notification (f u) else ret tt) w
    = (Return tt,
       set_notifications (fun n => n ++ (if guard then map f l else [])) w).
Proof.
  induction l as [|u l IH]; intros w.
  - simpl. unfold ret. destruct w, guard; unfold set_notifications; simpl;
      now rewrite app_nil_r.
  - simpl. unfold bind. destruct guard.
    + unfold save_notification, modify at 1. rewrite IH.
      destruct w; unfold set_notifications; simpl.
      now rewrite <- app_assoc.
    + unfold ret at 1. rewrite IH. reflexivity.
Qed.

(** The resolver runs after the new comment is saved; that comment is the
    posting user's own and changes nothing. *)
Lemma get_users_topic_after_save (request : CommentRequest) (topic : Topic)
    (w w1 : World) :
  comments w1 = comments w ++ [comment_saved request topic w] ->
  get_users_topic topic (user_id (creq_user request)) w1
  = (Return (resolved request topic w), w1).
Proof.
  intros Hc. unfold get_users_topic, bind, gets, ret. rewrite Hc.
  rewrite filter_app. simpl. rewrite Z.eqb_refl.
  unfold resolved, poster. now rewrite scan_users_own_last.
Qed.

(** A valid comment form on an existing topic: the handler writes the comment
    and the rows of [rows_written], then runs [delivery]. *)
Lemma NewCommentView_post_stages (env : Env) (request : CommentRequest)
    (forum slug_arg : string) (id : Z) (topic : Topic) (w : World) :
  creq_form_valid request = true ->
  find (fun t => Z.eqb (idtopic t) id) (topics w) = Some topic ->
  NewCommentView_post env request forum slug_arg id w
  = delivery env request forum slug_arg topic w
      (world_written request topic w).
Proof.
  intros Hvalid Hfind.
  assert (Hid : idtopic topic = id).
  { apply find_some in Hfind as [_ H]. now apply Z.eqb_eq in H. }
  subst id. unfold NewCommentView_post. rewrite Hvalid.
  unfold bind at 1. unfold get_topic_or_404. rewrite Hfind.
  unfold bind at 1. unfold gets at 1.
  unfold bind at 1. unfold modify at 1.
  unfold bind at 1. unfold modify at 1.
  unfold bind at 1.
  rewrite (get_users_topic_after_save request topic w) by reflexivity.
  fold (author topic) (poster request).
  unfold delivery, world_written, rows_written, loop_guard, comment_mail,
    comment_payload, comment_url, recipients, email_recipients, author_added.
  simpl mail_subject. simpl mail_message.
  destruct (negb (mem (author topic) (resolved request topic w)));
    cbv beta iota zeta; unfold bind at 1; rewrite for_each_guarded_save;
    reflexivity.
Qed.

(** The outcome of the e-mail and publish stages, case by case. *)
Lemma delivery_run (env : Env) (request : CommentRequest)
    (forum slug_arg : string) (topic : Topic) (w w1 : World) :
  delivery env request forum slug_arg topic w w1
  = let w2 :=
      if mail_called env request topic w
      then set_mail_attempts
             (fun l => l ++ [comment_mail env request forum slug_arg topic w]) w1
      else w1 in
    if mail_called env request topic w
       && negb (smtp_ok env (comment_mail env request forum slug_arg topic w))
    then (Raise SMTPException, w2)
    else if broker_up env
    then (Return (HttpResponseRedirect (comment_url forum slug_arg topic)),
          set_flash (fun l => l ++ [(SUCCESS, "Added new comment")])
            (set_published
               (fun l => l ++ [("notifications",
                                comment_payload env request forum topic w)]) w2))
    else (Raise ConnectionError, w2).
Proof.
  unfold delivery, mail_called, publish, messages_success.
  unfold comment_mail at 1 2. unfold email_recipients at 3.
  cbv beta iota zeta.
  destruct (truthy (EMAIL_MUSETTE env)) eqn:Hsender;
    [destruct (author_added request topic w) eqn:Hadded|];
    cbn [andb]; unfold send_mail; unfold bind, modify, ret, raise.
  - replace (mkMail _ _ _ [email (topic_user topic)])
      with (comment_mail env request forum slug_arg topic w)
      by (unfold comment_mail, email_recipients; now rewrite Hadded).
    destruct (smtp_ok env _); cbn [negb]; destruct (broker_up env); reflexivity.
  - destruct (broker_up env); reflexivity.
  - destruct (broker_up env); reflexivity.
Qed.

(** The resolver never returns the posting user, and returns no one twice. *)
Lemma resolved_excludes_poster (request : CommentRequest) (topic : Topic)
    (w : World) :
  ~ In (poster request) (resolved request topic w).
Proof.
  unfold resolved. rewrite scan_users_In. simpl. tauto.
Qed.

Lemma resolved_NoDup (request : CommentRequest) (topic : Topic) (w : World) :
  NoDup (resolved request topic w).
Proof.
  unfold resolved. apply scan_users_NoDup. constructor.
Qed.

(** [lista_us] holds no identifier twice. *)
Lemma recipients_NoDup (request : CommentRequest) (topic : Topic) (w : World) :
  NoDup (recipients request topic w).
Proof.
  unfold recipients, author_added.
  destruct (mem (author topic) (resolved request topic w)) eqn:Hm; simpl.
  - apply resolved_NoDup.
  - apply NoDup_snoc; [apply resolved_NoDup | now apply mem_false_In].
Qed.

(** [lista_us] holds the posting user exactly when the posting user is the
    author of the topic. *)
Lemma recipients_poster_iff (request : CommentRequest) (topic : Topic)
    (w : World) :
  In (poster request) (recipients request topic w)
  <-> author topic = poster request.
Proof.
  pose proof (resolved_excludes_poster request topic w) as Hex.
  unfold recipients, author_added.
  destruct (mem (author topic) (resolved request topic w)) eqn:Hm; simpl.
  - apply mem_In in Hm. split; [tauto|]. intros He. now rewrite <- He.
  - rewrite in_app_iff. simpl. split; [intros [H|[H|[]]]; tauto | tauto].
Qed.

(** The author of the topic is always among [lista_us]. *)
Lemma recipients_author (request : CommentRequest) (topic : Topic) (w : World) :
  In (author topic) (recipients request topic w).
Proof.
  unfold recipients, author_added.
  destruct (mem (author topic) (resolved request topic w)) eqn:Hm; simpl.
  - now apply mem_In.
  - rewrite in_app_iff. simpl. tauto.
Qed.

(** When the author of the topic posts the comment, the author is appended
    to both lists and the loop writes nothing. *)
Lemma author_is_poster_stages (request : CommentRequest) (topic : Topic)
    (w : World) :
  author topic = poster request ->
  recipients request topic w = resolved request topic w ++ [poster request]
  /\ email_recipients request topic w = [email (topic_user topic)]
  /\ rows_written request topic w = [].
Proof.
  intros He.
  assert (Ha : author_added request topic w = true).
  { unfold author_added. apply negb_true_iff, mem_false_In. rewrite He.
    apply resolved_excludes_poster. }
  unfold recipients, email_recipients, rows_written, loop_guard.
  rewrite Ha, He, Z.eqb_refl. auto.
Qed.

(** When someone else posts the comment, the loop writes one row for every
    element of [lista_us]. *)
Lemma other_poster_rows (request : CommentRequest) (topic : Topic) (w : World) :
  author topic <> poster request ->
  rows_written request topic w
  = map (row_for request w) (recipients request topic w).
Proof.
  intros Hne. unfold rows_written, loop_guard.
  apply Z.eqb_neq in Hne. rewrite Hne, andb_false_r. reflexivity.
Qed.

(** ** Comment-create requests, from the request to the response *)

Lemma skipn_length_app {A} (l l' : list A) :
  skipn (List.length l) (l ++ l') = l'.
Proof.
  rewrite skipn_app, skipn_all, Nat.sub_diag. reflexivity.
Qed.

(** An invalid form only flashes an error; an unknown topic raises 404
    before anything is written. *)
Lemma NewCommentView_post_unknown_topic (env : Env) (request : CommentRequest)
    (forum slug_arg : string) (id : Z) (w : World) :
  creq_form_valid request = true ->
  find (fun t => Z.eqb (idtopic t) id) (topics w) = None ->
  NewCommentView_post env request forum slug_arg id w = (Raise Http404, w).
Proof.
  intros Hvalid Hfind. unfold NewCommentView_post. rewrite Hvalid.
  unfold bind at 1. unfold get_topic_or_404. now rewrite Hfind.
Qed.

(** What a comment-create request with a valid form on an existing topic
    leaves behind, and how it ends. *)
Lemma NewCommentView_post_summary (env : Env) (request : CommentRequest)
    (forum slug_arg : string) (id : Z) (topic : Topic) (w : World) :
  creq_form_valid request = true ->
  find (fun t => Z.eqb (idtopic t) id) (topics w) = Some topic ->
  let mail := comment_mail env request forum slug_arg topic w in
  let mail_fails := mail_called env request topic w && negb (smtp_ok env mail) in
  let r := fst (NewCommentView_post env request forum slug_arg id w) in
  let w' := snd (NewCommentView_post env request forum slug_arg id w) in
  comments w' = comments w ++ [comment_saved request topic w]
  /\ notifications w' = notifications w ++ rows_written request topic w
  /\ mail_attempts w'
     = mail_attempts w ++ (if mail_called env request topic w then [mail] else [])
  /\ published w'
     = published w
       ++ (if negb mail_fails && broker_up env
           then [("notifications", comment_payload env request forum topic w)]
           else [])
  /\ flash w'
     = flash w
       ++ (if negb mail_fails && broker_up env
           then [(SUCCESS, "Added new comment")] else [])
  /\ r = (if mail_fails then Raise SMTPException
          else if broker_up env
          then Return (HttpResponseRedirect (comment_url forum slug_arg topic))
          else Raise ConnectionError).
Proof.
  intros Hvalid Hfind mail mail_fails.
  rewrite (NewCommentView_post_stages env request forum slug_arg id topic w)
    by assumption.
  rewrite delivery_run. fold mail. fold mail_fails.
  cbv zeta. unfold mail_fails.
  destruct (mail_called env request topic w);
    destruct (smtp_ok env mail); destruct (broker_up env);
    cbn [andb negb fst snd]; unfold world_written; destruct w;
    cbn [set_flash set_published set_mail_attempts set_notifications
         set_comments set_comment_seq comments notifications mail_attempts
         published flash forums topics topic_seq comment_seq];
    rewrite ?app_nil_r; repeat split; reflexivity.
Qed.

(** ** The author of a topic comments on it *)

(** A request of someone other than the author of the topic: one row is
    saved for every element of [lista_us], which holds the author, holds no
    one twice and does not hold the posting user. *)
Lemma NewCommentView_post_other_poster (env : Env) (request : CommentRequest)
    (forum slug_arg : string) (id : Z) (topic : Topic) (w : World) :
  creq_form_valid request = true ->
  find (fun t => Z.eqb (idtopic t) id) (topics w) = Some topic ->
  author topic <> poster request ->
  let w' := snd (NewCommentView_post env request forum slug_arg id w) in
  rows_added w w' = map (row_for request w) (recipients request topic w)
  /\ rows_added w w' <> []
  /\ NoDup (recipients request topic w)
  /\ ~ In (poster request) (recipients request topic w).
Proof.
  intros Hvalid Hfind Hne w'.
  destruct (NewCommentView_post_summary env request forum slug_arg id topic w
              Hvalid Hfind) as (_ & Hn & _).
  fold w' in Hn. unfold rows_added.
  rewrite Hn, skipn_length_app, other_poster_rows by assumption.
  repeat split.
  - pose proof (recipients_author request topic w) as Ha.
    destruct (recipients request topic w); [destruct Ha | discriminate].
  - apply recipients_NoDup.
  - rewrite recipients_poster_iff. assumption.
Qed.

(** A request of the author of the topic: the author is appended to both
    lists although the author is the posting user, and no row is saved. *)
Lemma NewCommentView_post_author_is_poster (env : Env)
    (request : CommentRequest) (forum slug_arg : string) (id : Z)
    (topic : Topic) (w : World) :
  creq_form_valid request = true ->
  find (fun t => Z.eqb (idtopic t) id) (topics w) = Some topic ->
  author topic = poster request ->
  let w' := snd (NewCommentView_post env request forum slug_arg id w) in
  rows_added w w' = []
  /\ recipients request topic w = resolved request topic w ++ [poster request]
  /\ email_recipients request topic w = [email (topic_user topic)].
Proof.
  intros Hvalid Hfind He w'.
  destruct (NewCommentView_post_summary env request forum slug_arg id topic w
              Hvalid Hfind) as (_ & Hn & _).
  destruct (author_is_poster_stages request topic w He) as (Hr & Hm & Hw).
  fold w' in Hn. unfold rows_added.
  rewrite Hn, skipn_length_app. auto.
Qed.

(** C1.  The claim: when the author of the topic posts the comment, the
    lists used for the notification writes, the published payload and the
    e-mail are those of the resolver, with no entry for the author.  The
    handler run on the topic of alice (user 1), commented before by bob
    (user 2), with alice posting: the resolver returns [[2]], yet the
    published list is [[2; 1]], a message goes to alice's address, and no
    notification row is written at all. *)
Theorem C1_author_posts_on_own_topic :
  let request := mkCommentRequest alice "Thanks" true 40 in
  let w' := snd (NewCommentView_post site_env request "general" "welcome" 7
                   one_comment_world) in
  author welcome = poster request
  /\ resolved request welcome one_comment_world = [2]
  /\ map p_lista_us (payloads_added one_comment_world w') = [[2; 1]]
  /\ map mail_to (mails_added one_comment_world w') = [["alice@example.org"]]
  /\ rows_added one_comment_world w' = [].
Proof.
  vm_compute. repeat split.
Qed.

(** C2.  The claim: one notification row is saved for every recipient, at
    least one when the list is not empty.  The handler run on the topic of
    alice, commented before by bob and carol, with alice posting: the list
    of recipients is [[2; 3; 1]], the request reports success, and no row is
    saved. *)
Theorem C2_no_row_when_author_posts :
  let request := mkCommentRequest alice "Thanks" true 40 in
  let run := NewCommentView_post site_env request "general" "welcome" 7
               two_comments_world in
  recipients request welcome two_comments_world = [2; 3; 1]
  /\ map p_lista_us (payloads_added two_comments_world (snd run)) = [[2; 3; 1]]
  /\ reports_success (fst run) two_comments_world (snd run) = true
  /\ rows_added two_comments_world (snd run) = [].
Proof.
  vm_compute. repeat split.
Qed.

(** C8.  The claim: the list of recipients holds no identifier twice and
    never the posting user.  The handler run on the topic of alice without
    earlier comments, with alice posting: the list published and used by the
    loop is [[1]], the identifier of alice herself. *)
Theorem C8_poster_among_recipients :
  let request := mkCommentRequest alice "First" true 40 in
  let w' := snd (NewCommentView_post site_env request "general" "welcome" 7
                   quiet_world) in
  resolved request welcome quiet_world = []
  /\ recipients request welcome quiet_world = [poster request]
  /\ map p_lista_us (payloads_added quiet_world w') = [[poster request]]
  /\ In (poster request) (recipients request welcome quiet_world).
Proof.
  vm_compute. repeat split. now left.
Qed.

(** ** A broker that cannot be reached *)

(** C5, as stated, fails: with the broker down the request of carol on the
    topic of alice ends with the broker's error. *)
Lemma C5_publish_failure_counterexample :
  ~ publish_failure_tolerated broker_down_env
      (mkCommentRequest carol "Nice" true 40) "general" "welcome" 7 welcome
      one_comment_world.
Proof.
  unfold publish_failure_tolerated. intros H.
  destruct (H eq_refl) as [_ Hs]. vm_compute in Hs. discriminate Hs.
Qed.

(** C5, amended.  When the publish call fails on a request with a valid
    form, an existing topic and no failing e-mail, the request ends with the
    broker's [ConnectionError] and without a success message; the comment,
    the notification rows and the e-mail that precede the publish call stay
    as they were written. *)
Theorem C5_publish_failure_propagates (env : Env) (request : CommentRequest)
    (forum slug_arg : string) (id : Z) (topic : Topic) (w : World) :
  creq_form_valid request = true ->
  find (fun t => Z.eqb (idtopic t) id) (topics w) = Some topic ->
  (mail_called env request topic w = true ->
   smtp_ok env (comment_mail env request forum slug_arg topic w) = true) ->
  broker_up env = false ->
  let r := fst (NewCommentView_post env request forum slug_arg id w) in
  let w' := snd (NewCommentView_post env request forum slug_arg id w) in
  r = Raise ConnectionError
  /\ reports_success r w w' = false
  /\ comments w' = comments w ++ [comment_saved request topic w]
  /\ rows_added w w' = rows_written request topic w
  /\ mails_added w w'
     = (if mail_called env request topic w
        then [comment_mail env request forum slug_arg topic w] else [])
  /\ payloads_added w w' = []
  /\ flash w' = flash w.
Proof.
  intros Hvalid Hfind Hmail Hdown r w'.
  destruct (NewCommentView_post_summary env request forum slug_arg id topic w
              Hvalid Hfind) as (Hc & Hn & Hm & Hp & Hf & Hr).
  fold r in Hr. fold w' in Hc, Hn, Hm, Hp, Hf.
  assert (Hok : mail_called env request topic w
                && negb (smtp_ok env
                           (comment_mail env request forum slug_arg topic w))
                = false).
  { destruct (mail_called env request topic w); [|reflexivity].
    now rewrite Hmail. }
  rewrite Hok, Hdown in *. cbn [negb andb] in *.
  rewrite app_nil_r in Hp, Hf.
  unfold rows_added, mails_added, payloads_added.
  rewrite Hn, Hm, Hp, Hr, !skipn_length_app, skipn_all.
  repeat split; try reflexivity; assumption.
Qed.

Lemma C5_publish_failure_witness :
  let request := mkCommentRequest carol "Nice" true 40 in
  let run := NewCommentView_post broker_down_env request "general" "welcome"
               7 one_comment_world in
  fst run = Raise ConnectionError
  /\ reports_success (fst run) one_comment_world (snd run) = false
  /\ comments (snd run)
     = comments one_comment_world
       ++ [comment_saved request welcome one_comment_world]
  /\ rows_added one_comment_world (snd run)
     = rows_written request welcome one_comment_world
  /\ mails_added one_comment_world (snd run)
     = (if mail_called broker_down_env request welcome one_comment_world
        then [comment_mail broker_down_env request "general" "welcome"
                welcome one_comment_world]
        else [])
  /\ payloads_added one_comment_world (snd run) = []
  /\ flash (snd run) = flash one_comment_world.
Proof.
  apply (C5_publish_failure_propagates broker_down_env
           (mkCommentRequest carol "Nice" true 40) "general" "welcome" 7
           welcome one_comment_world);
    reflexivity.
Defined.

(** ** The description of the payload *)

Lemma length_append (s t : string) :
  String.length (s ++ t)%string = (String.length s + String.length t)%nat.
Proof.
  induction s as [|c s IH]; simpl; [reflexivity | now rewrite IH].
Qed.






(** ** Topic-create requests *)

(** One turn of the moderator loop. *)
Lemma mail_moderator_run (env : Env) (forum : Forum) (m : User) (w : World) :
  truthy (EMAIL_MUSETTE env) = true ->
  mail_moderator env forum m w
  = (if smtp_ok env (moderator_mail env forum m)
     then Return tt else Raise SMTPException,
     set_mail_attempts (fun l => l ++ [moderator_mail env forum m]) w).
Proof.
  intros Hs. unfold mail_moderator. rewrite Hs.
  unfold send_mail, bind, modify, ret, raise.
  fold (moderator_mail env forum m).
  destruct (smtp_ok env (moderator_mail env forum m)); reflexivity.
Qed.

Lemma set_mail_attempts_nil (w : World) :
  set_mail_attempts (fun l => l ++ []) w = w.
Proof.
  destruct w. unfold set_mail_attempts. simpl. now rewrite app_nil_r.
Qed.

Lemma set_mail_attempts_app (l1 l2 : list Mail) (w : World) :
  set_mail_attempts (fun l => l ++ l2) (set_mail_attempts (fun l => l ++ l1) w)
  = set_mail_attempts (fun l => l ++ l1 ++ l2) w.
Proof.
  destruct w. unfold set_mail_attempts. simpl. now rewrite app_assoc.
Qed.

(** Without a sender address the loop sends nothing. *)
Lemma moderators_loop_disabled (env : Env) (forum : Forum) (l : list User) :
  truthy (EMAIL_MUSETTE env) = false ->
  forall w, for_each l (mail_moderator env forum) w = (Return tt, w).
Proof.
  intros Hs. induction l as [|m l IH]; intros w; simpl; [reflexivity|].
  unfold bind. unfold mail_moderator at 1. rewrite Hs. unfold ret at 1.
  apply IH.
Qed.

(** While every send succeeds the loop mails the moderators one by one. *)
Lemma moderators_loop_ok (env : Env) (forum : Forum) (l : list User) :
  truthy (EMAIL_MUSETTE env) = true ->
  (forall m, In m l -> smtp_ok env (moderator_mail env forum m) = true) ->
  forall w,
    for_each l (mail_moderator env forum) w
    = (Return tt,
       set_mail_attempts (fun a => a ++ map (moderator_mail env forum) l) w).
Proof.
  intros Hs. induction l as [|m l IH]; intros Hok w; simpl.
  - now rewrite set_mail_attempts_nil.
  - unfold bind. rewrite mail_moderator_run by assumption.
    rewrite (Hok m) by now left.
    rewrite IH by (intros; apply Hok; now right).
    now rewrite set_mail_attempts_app.
Qed.

(** The first failing send ends the loop: the moderators after it are not
    tried. *)
Lemma moderators_loop_fails (env : Env) (forum : Forum)
    (before : list User) (m : User) (after : list User) :
  truthy (EMAIL_MUSETTE env) = true ->
  (forall u, In u before -> smtp_ok env (moderator_mail env forum u) = true) ->
  smtp_ok env (moderator_mail env forum m) = false ->
  forall w,
    for_each (before ++ m :: after) (mail_moderator env forum) w
    = (Raise SMTPException,
       set_mail_attempts
         (fun a => a ++ map (moderator_mail env forum) (before ++ [m])) w).
Proof.
  intros Hs. induction before as [|u before IH]; intros Hok Hm w; simpl.
  - unfold bind. rewrite mail_moderator_run by assumption. now rewrite Hm.
  - unfold bind. rewrite mail_moderator_run by assumption.
    rewrite (Hok u) by now left.
    rewrite IH by (try assumption; intros; apply Hok; now right).
    now rewrite set_mail_attempts_app.
Qed.

(** The handler around the gate. *)
Lemma NewTopicView_post_published (env : Env) (request : TopicRequest)
    (forum : string) (forum_obj : Forum) (w : World) :
  treq_form_valid request = true ->
  find (fun f => String.eqb (forum_name f) forum) (forums w) = Some forum_obj ->
  (is_moderate forum_obj = false
   \/ user_in (treq_user request) (moderators forum_obj) = true) ->
  NewTopicView_post env request forum w
  = (Return (HttpResponseRedirect ("/forum/" ++ forum)%string),
     topic_done env request forum_obj true w w).
Proof.
  intros Hvalid Hfind Hgate. unfold NewTopicView_post. rewrite Hvalid.
  unfold bind at 1. unfold get_forum_or_404. rewrite Hfind.
  unfold bind at 1.
  destruct (is_moderate forum_obj);
    [destruct Hgate as [Hg|Hg]; [discriminate Hg | rewrite Hg] |];
    reflexivity.
Qed.

Lemma NewTopicView_post_held (env : Env) (request : TopicRequest)
    (forum : string) (forum_obj : Forum) (w : World) :
  treq_form_valid request = true ->
  find (fun f => String.eqb (forum_name f) forum) (forums w) = Some forum_obj ->
  is_moderate forum_obj = true ->
  user_in (treq_user request) (moderators forum_obj) = false ->
  NewTopicView_post env request forum w
  = match for_each (moderators forum_obj) (mail_moderator env forum_obj) w with
    | (Return _, w1) =>
        (Return (HttpResponseRedirect ("/forum/" ++ forum)%string),
         topic_done env request forum_obj false w1 w1)
    | (Raise e, w1) => (Raise e, w1)
    end.
Proof.
  intros Hvalid Hfind Hmod Huser. unfold NewTopicView_post. rewrite Hvalid.
  unfold bind at 1. unfold get_forum_or_404. rewrite Hfind.
  unfold bind at 1. rewrite Hmod, Huser. unfold bind at 1.
  destruct (for_each (moderators forum_obj) (mail_moderator env forum_obj) w)
    as [[[]|e] w1]; reflexivity.
Qed.

(** C3, as stated, fails: alice opens a topic on the moderated forum whose
    moderators are bob and carol, and the transport refuses the message to
    bob. *)
Lemma C3_mail_failure_counterexample :
  ~ mail_failures_isolated bob_bounces_env
      (mkTopicRequest alice "Hello" None true 40 "r") "general" general
      quiet_world.
Proof.
  intros (_ & _ & Hs). vm_compute in Hs. discriminate Hs.
Qed.

(** C3, amended.  On a moderated forum with a non-moderator author and a
    configured sender address, the first failure to mail a moderator is
    raised to the caller ([send_mail] is called with [fail_silently=False]
    and nothing catches the error): the moderators before it have been
    mailed, the one it failed for has been tried, those after it are not
    tried, the topic is not saved and no success is reported. *)
Theorem C3_mail_failure_aborts (env : Env) (request : TopicRequest)
    (forum : string) (forum_obj : Forum) (w : World)
    (before : list User) (m : User) (after : list User) :
  treq_form_valid request = true ->
  find (fun f => String.eqb (forum_name f) forum) (forums w) = Some forum_obj ->
  is_moderate forum_obj = true ->
  user_in (treq_user request) (moderators forum_obj) = false ->
  truthy (EMAIL_MUSETTE env) = true ->
  moderators forum_obj = before ++ m :: after ->
  (forall u, In u before ->
             smtp_ok env (moderator_mail env forum_obj u) = true) ->
  smtp_ok env (moderator_mail env forum_obj m) = false ->
  let r := fst (NewTopicView_post env request forum w) in
  let w' := snd (NewTopicView_post env request forum w) in
  r = Raise SMTPException
  /\ mails_added w w' = map (moderator_mail env forum_obj) (before ++ [m])
  /\ topics w' = topics w
  /\ reports_success r w w' = false.
Proof.
  intros Hvalid Hfind Hmod Huser Hsender Hsplit Hbefore Hm r w'.
  subst r w'.
  rewrite (NewTopicView_post_held env request forum forum_obj w) by assumption.
  rewrite Hsplit, moderators_loop_fails by assumption.
  cbn [fst snd]. unfold mails_added. destruct w.
  cbn [set_mail_attempts mail_attempts topics].
  rewrite skipn_length_app. repeat split; reflexivity.
Qed.

Lemma C3_mail_failure_witness :
  let request := mkTopicRequest alice "Hello" None true 40 "r" in
  let run := NewTopicView_post bob_bounces_env request "general" quiet_world in
  fst run = Raise SMTPException
  /\ mails_added quiet_world (snd run)
     = map (moderator_mail bob_bounces_env general) ([] ++ [bob])
  /\ topics (snd run) = topics quiet_world
  /\ reports_success (fst run) quiet_world (snd run) = false.
Proof.
  apply (C3_mail_failure_aborts bob_bounces_env
           (mkTopicRequest alice "Hello" None true 40 "r") "general" general
           quiet_world [] bob [carol]);
    try reflexivity.
  intros u [].
Defined.

(** C4, as stated, fails: without a sender address no moderator is mailed
    when alice opens a topic on the moderated forum. *)
Lemma C4_moderation_gate_counterexample :
  ~ moderation_gate_as_stated no_sender_env
      (mkTopicRequest alice "Hello" None true 40 "r") "general" general
      quiet_world.
Proof.
  intros (_ & _ & H). destruct (H eq_refl eq_refl) as [_ Hm].
  vm_compute in Hm. discriminate Hm.
Qed.

Lemma topics_added_done (env : Env) (request : TopicRequest) (forum : Forum)
    (b : bool) (f : list Mail -> list Mail) (w : World) :
  topics_added w
    (topic_done env request forum b (set_mail_attempts f w)
       (set_mail_attempts f w))
  = [topic_saved env request forum w b].
Proof.
  unfold topics_added. destruct w.
  cbn [topic_done set_flash set_topics set_topic_seq set_mail_attempts topics].
  now rewrite skipn_length_app.
Qed.

Lemma mails_added_done (env : Env) (request : TopicRequest) (forum : Forum)
    (b : bool) (l : list Mail) (w : World) :
  mails_added w
    (topic_done env request forum b (set_mail_attempts (fun a => a ++ l) w)
       (set_mail_attempts (fun a => a ++ l) w))
  = l.
Proof.
  unfold mails_added. destruct w.
  cbn [topic_done set_flash set_topics set_topic_seq set_mail_attempts
       mail_attempts].
  now rewrite skipn_length_app.
Qed.

(** C4, amended.  At topic creation, with a valid form on an existing forum:
    if the forum does not require moderation the topic is saved with
    [moderate] true and nothing is mailed; if it requires moderation and the
    author is one of its moderators, [moderate] is true and nothing is
    mailed; otherwise [moderate] is false, nothing is mailed when no sender
    address is configured, and when one is configured and every send
    succeeds each moderator is mailed once, in order. *)
Theorem C4_moderation_gate (env : Env) (request : TopicRequest)
    (forum : string) (forum_obj : Forum) (w : World) :
  treq_form_valid request = true ->
  find (fun f => String.eqb (forum_name f) forum) (forums w) = Some forum_obj ->
  let w' := snd (NewTopicView_post env request forum w) in
  let flags := map moderate (topics_added w w') in
  (is_moderate forum_obj = false -> flags = [true] /\ mails_added w w' = [])
  /\ (is_moderate forum_obj = true ->
      user_in (treq_user request) (moderators forum_obj) = true ->
      flags = [true] /\ mails_added w w' = [])
  /\ (is_moderate forum_obj = true ->
      user_in (treq_user request) (moderators forum_obj) = false ->
      truthy (EMAIL_MUSETTE env) = false ->
      flags = [false] /\ mails_added w w' = [])
  /\ (is_moderate forum_obj = true ->
      user_in (treq_user request) (moderators forum_obj) = false ->
      truthy (EMAIL_MUSETTE env) = true ->
      (forall m, In m (moderators forum_obj) ->
                 smtp_ok env (moderator_mail env forum_obj m) = true) ->
      flags = [false]
      /\ mails_added w w'
         = map (moderator_mail env forum_obj) (moderators forum_obj)).
Proof.
  intros Hvalid Hfind w' flags. subst flags w'.
  pose proof (topics_added_done env request forum_obj) as Ht.
  pose proof (mails_added_done env request forum_obj) as Hm.
  repeat split; intros.
  all: try (rewrite (NewTopicView_post_published env request forum forum_obj w)
              by auto;
            cbn [snd]; rewrite <- (set_mail_attempts_nil w) at 2 3).
  all: try (rewrite (NewTopicView_post_held env request forum forum_obj w)
              by assumption).
  all: try (rewrite moderators_loop_ok by assumption).
  all: try (rewrite moderators_loop_disabled by assumption;
            rewrite <- (set_mail_attempts_nil w) at 2 3).
  all: cbn [snd]; rewrite ?Ht, ?Hm; reflexivity.
Qed.

Lemma C4_moderation_gate_witness :
  let request := mkTopicRequest alice "Hello" None true 40 "r" in
  let w' := snd (NewTopicView_post site_env request "general" quiet_world) in
  map moderate (topics_added quiet_world w') = [false]
  /\ mails_added quiet_world w'
     = map (moderator_mail site_env general) [bob; carol].
Proof.
  refine (proj2 (proj2 (proj2
            (C4_moderation_gate site_env
               (mkTopicRequest alice "Hello" None true 40 "r") "general"
               general quiet_world eq_refl eq_refl)))
            eq_refl eq_refl eq_refl _).
  intros m Hm. reflexivity.
Defined.

(** ** Deleting a comment *)

Lemma DeleteCommentView_post_run (iduser_req : Z) (forum slug_arg : string)
    (idtopic_arg idcomment_arg : Z) (w : World) :
  DeleteCommentView_post iduser_req forum slug_arg idtopic_arg idcomment_arg w
  = (Return (HttpResponseRedirect
               ("/topic/" ++ forum ++ "/" ++ slug_arg ++ "/"
                  ++ str idtopic_arg ++ "/")%string),
     set_flash (fun l => l ++ [(SUCCESS, "Comment deleted")])
       (set_notifications
          (filter (fun n => negb (Z.eqb (idobject n) idcomment_arg)))
          (set_comments
             (filter (fun c =>
                negb (Z.eqb (idcomment c) idcomment_arg
                      && Z.eqb (user_id (comment_user c)) iduser_req)))
             w))).
Proof.
  reflexivity.
Qed.

Lemma filter_all {A} (f : A -> bool) (l : list A) :
  (forall x, In x l -> f x = true) -> filter f l = l.
Proof.
  induction l as [|x l IH]; intros H; simpl; [reflexivity|].
  rewrite (H x) by now left. f_equal. apply IH. intros; apply H; now right.
Qed.

(** C6.  The claim: deleting a comment removes the rows whose [idobject] is
    the identifier of the comment and no other, and leaves the rows marked
    as topic notifications unchanged.  The handler run by alice on her
    comment 5, in a world whose first row is a topic notification (for topic
    5) and whose second row is the comment notification of comment 5:
    both rows are removed, only the row for comment 6 is left. *)
Theorem C6_topic_row_removed :
  let topic_row := mkNotification 2 false 5 15 true false in
  let w' := snd (DeleteCommentView_post 1 "general" "welcome" 7 5
                   colliding_world) in
  In topic_row (notifications colliding_world)
  /\ is_topic topic_row = true
  /\ notifications w' = [mkNotification 1 false 6 35 false true]
  /\ ~ In topic_row (notifications w').
Proof.
  vm_compute. repeat split; auto.
  intros [H|[]]. discriminate H.
Qed.

(** C10.  When the user who asks for the deletion is not the author of the
    comment, or the comment does not exist, the table of comments is left as
    it is, and every notification row whose [idobject] is the requested
    identifier is deleted all the same; the other rows stay. *)
Theorem C10_delete_by_other_user (iduser_req : Z) (forum slug_arg : string)
    (idtopic_arg idcomment_arg : Z) (w : World) :
  (forall c, In c (comments w) -> idcomment c = idcomment_arg ->
             user_id (comment_user c) <> iduser_req) ->
  let w' := snd (DeleteCommentView_post iduser_req forum slug_arg idtopic_arg
                   idcomment_arg w) in
  comments w' = comments w
  /\ notifications w'
     = filter (fun n => negb (Z.eqb (idobject n) idcomment_arg))
              (notifications w)
  /\ (forall n, In n (notifications w') <->
                In n (notifications w) /\ idobject n <> idcomment_arg).
Proof.
  intros Hother w'. subst w'. rewrite DeleteCommentView_post_run.
  cbn [snd]. destruct w.
  cbn [set_flash set_notifications set_comments comments notifications] in *.
  split; [|split].
  - apply filter_all. intros c Hc.
    destruct (Z.eqb_spec (idcomment c) idcomment_arg) as [He|Hne];
      [|reflexivity].
    specialize (Hother c Hc He). apply Z.eqb_neq in Hother.
    now rewrite Hother.
  - reflexivity.
  - intros n. rewrite filter_In, negb_true_iff, Z.eqb_neq. reflexivity.
Qed.

Lemma C10_delete_by_other_user_witness :
  let w' := snd (DeleteCommentView_post 2 "general" "welcome" 7 5
                   colliding_world) in
  comments w' = comments colliding_world
  /\ notifications w'
     = filter (fun n => negb (Z.eqb (idobject n) 5))
              (notifications colliding_world)
  /\ (forall n, In n (notifications w') <->
                In n (notifications colliding_world) /\ idobject n <> 5).
Proof.
  apply (C10_delete_by_other_user 2 "general" "welcome" 7 5 colliding_world).
  intros c [Hc|[Hc|[]]] Hid; subst c; simpl in *; lia.
Defined.

(** ** Marking notifications as viewed *)

Lemma mark_viewed_idempotent (user : Z) (n : Notification) :
  mark_viewed user (mark_viewed user n) = mark_viewed user n.
Proof.
  unfold mark_viewed. destruct (Z.eqb (iduser n) user) eqn:He; simpl;
    now rewrite He.
Qed.

Lemma no_pending_after_mark (user : Z) (l : list Notification) :
  filter (fun n => negb (is_view n) && Z.eqb (iduser n) user)
         (map (mark_viewed user) l) = [].
Proof.
  induction l as [|n l IH]; simpl; [reflexivity|].
  unfold mark_viewed at 1 2. destruct (Z.eqb (iduser n) user) eqn:He; simpl.
  - exact IH.
  - rewrite He, andb_false_r. exact IH.
Qed.

(** C9.  After any sequence of notification rows has been created, marking
    all notifications of a user as viewed and counting the user's pending
    notifications right away gives 0, and marking them a second time
    changes nothing. *)
Theorem C9_mark_all_viewed (user : Z) (rows : list Notification) (w : World) :
  let w1 := snd (for_each rows save_notification w) in
  let w2 := snd (SetNotifications user w1) in
  get_pending_notifications user w2 = (Return 0%nat, w2)
  /\ SetNotifications user w2 = (Return (HttpResponseText "Ok"), w2).
Proof.
  intros w1 w2. subst w2. generalize w1. clear. intros w.
  unfold SetNotifications, get_pending_notifications, bind, modify, gets, ret.
  cbn [snd]. destruct w. cbn [set_notifications notifications]. split.
  - now rewrite no_pending_after_mark.
  - unfold set_notifications. cbn. rewrite map_map.
    do 2 f_equal. apply map_ext. intros n. apply mark_viewed_idempotent.
Qed.

(** * Further properties of the handlers *)

(** ** What a comment-create request writes *)

Lemma NewCommentView_post_invalid_form (env : Env) (request : CommentRequest)
    (forum slug_arg : string) (id : Z) (w : World) :
  creq_form_valid request = false ->
  NewCommentView_post env request forum slug_arg id w
  = (Return (HttpResponseRedirect
               ("/topic/" ++ forum ++ "/" ++ slug_arg ++ "/" ++ str id ++ "/")%string),
     set_flash (fun l => l ++ [(ERROR, "Field required")]) w).
Proof.
  intros Hinvalid. unfold NewCommentView_post. rewrite Hinvalid. reflexivity.
Qed.

(** The three ways a comment-create request can go. *)
Lemma NewCommentView_post_cases (env : Env) (request : CommentRequest)
    (forum slug_arg : string) (id : Z) (w : World) :
  let w' := snd (NewCommentView_post env request forum slug_arg id w) in
  (comments w' = comments w /\ notifications w' = notifications w
   /\ mail_attempts w' = mail_attempts w /\ published w' = published w
   /\ (creq_form_valid request = false
       \/ find (fun t => Z.eqb (idtopic t) id) (topics w) = None))
  \/ (exists topic,
        creq_form_valid request = true
        /\ find (fun t => Z.eqb (idtopic t) id) (topics w) = Some topic
        /\ comments w' = comments w ++ [comment_saved request topic w]
        /\ notifications w' = notifications w ++ rows_written request topic w
        /\ mail_attempts w'
           = mail_attempts w
             ++ (if mail_called env request topic w
                 then [comment_mail env request forum slug_arg topic w]
                 else [])).
Proof.
  intros w'. subst w'.
  destruct (creq_form_valid request) eqn:Hvalid.
  - destruct (find (fun t => Z.eqb (idtopic t) id) (topics w)) as [topic|]
      eqn:Hfind.
    + right. exists topic.
      destruct (NewCommentView_post_summary env request forum slug_arg id
                  topic w Hvalid Hfind) as (Hc & Hn & Hm & _).
      auto.
    + left. rewrite NewCommentView_post_unknown_topic by assumption.
      cbn [snd]. auto 6.
  - left. rewrite NewCommentView_post_invalid_form by assumption.
    cbn [snd]. destruct w. cbn. auto 6.
Qed.

(** X1.  Every notification row a comment-create request writes is an unread
    comment notification for the comment just saved, addressed to someone
    other than the posting user, and no user gets two. *)
Theorem comment_rows_invariant (env : Env) (request : CommentRequest)
    (forum slug_arg : string) (id : Z) (w : World) :
  let w' := snd (NewCommentView_post env request forum slug_arg id w) in
  (forall row, In row (rows_added w w') ->
     is_view row = false /\ is_comment row = true /\ is_topic row = false
     /\ idobject row = comment_seq w /\ date row = creq_now request
     /\ iduser row <> user_id (creq_user request))
  /\ NoDup (map iduser (rows_added w w')).
Proof.
  intros w'.
  destruct (NewCommentView_post_cases env request forum slug_arg id w)
    as [(_ & Hn & _) | (topic & _ & _ & _ & Hn & _)];
    fold w' in Hn; unfold rows_added; rewrite Hn.
  - rewrite skipn_all. split; [intros row [] | constructor].
  - rewrite skipn_length_app. unfold rows_written, loop_guard.
    destruct (author_added request topic w && Z.eqb (author topic) (poster request))
      eqn:Hg; cbn [negb].
    + split; [intros row [] | constructor].
    + assert (Hnp : ~ In (poster request) (recipients request topic w)).
      { rewrite recipients_poster_iff. intros He.
        assert (Ha : author_added request topic w = true).
        { unfold author_added. apply negb_true_iff, mem_false_In.
          rewrite He. apply resolved_excludes_poster. }
        rewrite Ha, He, Z.eqb_refl in Hg. discriminate Hg. }
      split.
      * intros row Hrow. apply in_map_iff in Hrow as [u [<- Hu]].
        cbn. repeat split. intros He. apply Hnp. unfold poster.
        now rewrite <- He.
      * rewrite map_map. cbn. rewrite map_id. apply recipients_NoDup.
Qed.

Lemma pending_among_new_rows (request : CommentRequest) (w : World) (u : Z)
    (l : list Z) :
  NoDup l ->
  List.length
    (filter (fun n => negb (is_view n) && Z.eqb (iduser n) u)
            (map (row_for request w) l))
  = if mem u l then 1%nat else 0%nat.
Proof.
  induction 1 as [|x l Hx Hl IH]; [reflexivity|].
  cbn [map filter row_for is_view iduser negb andb mem existsb].
  rewrite (Z.eqb_sym u x). destruct (Z.eqb_spec x u) as [He|Hne].
  - subst x. cbn [orb List.length]. rewrite IH.
    apply mem_false_In in Hx. now rewrite Hx.
  - cbn [orb]. exact IH.
Qed.

(** X2.  When someone other than the author of the topic comments, the count of
    pending notifications of every recipient goes up by exactly one, and the
    count of everybody else, the posting user included, stays as it was. *)
Theorem comment_raises_pending_by_one (env : Env) (request : CommentRequest)
    (forum slug_arg : string) (id : Z) (topic : Topic) (w : World) (u : Z)
    (n : nat) :
  creq_form_valid request = true ->
  find (fun t => Z.eqb (idtopic t) id) (topics w) = Some topic ->
  author topic <> poster request ->
  get_pending_notifications u w = (Return n, w) ->
  let w' := snd (NewCommentView_post env request forum slug_arg id w) in
  get_pending_notifications u w'
  = (Return (n + (if mem u (recipients request topic w) then 1 else 0))%nat, w')
  /\ mem (poster request) (recipients request topic w) = false.
Proof.
  intros Hvalid Hfind Hne Hn w'.
  destruct (NewCommentView_post_summary env request forum slug_arg id topic w
              Hvalid Hfind) as (_ & Hrows & _).
  fold w' in Hrows. split.
  - unfold get_pending_notifications, gets in *.
    injection Hn as Hn. rewrite Hrows, other_poster_rows by assumption.
    rewrite filter_app, length_app, Hn.
    now rewrite pending_among_new_rows by apply recipients_NoDup.
  - apply mem_false_In. rewrite recipients_poster_iff. assumption.
Qed.

Lemma comment_raises_pending_by_one_witness :
  let request := mkCommentRequest carol "Nice" true 40 in
  let w' := snd (NewCommentView_post site_env request "general" "welcome" 7
                   one_comment_world) in
  get_pending_notifications 2 w'
  = (Return (0 + (if mem 2 (recipients request welcome one_comment_world)
                  then 1 else 0))%nat, w')
  /\ mem (poster request) (recipients request welcome one_comment_world) = false.
Proof.
  apply (comment_raises_pending_by_one site_env
           (mkCommentRequest carol "Nice" true 40) "general" "welcome" 7
           welcome one_comment_world 2 0%nat);
    try reflexivity.
  vm_compute. discriminate.
Defined.

(** X3.  A comment-create request with an invalid form, or for a topic that does
    not exist, leaves no comment, no notification, no e-mail and no
    published message behind, and does not report success. *)
Theorem comment_rejected_leaves_no_trace (env : Env) (request : CommentRequest)
    (forum slug_arg : string) (id : Z) (w : World) :
  creq_form_valid request = false
  \/ find (fun t => Z.eqb (idtopic t) id) (topics w) = None ->
  let r := fst (NewCommentView_post env request forum slug_arg id w) in
  let w' := snd (NewCommentView_post env request forum slug_arg id w) in
  comments w' = comments w /\ notifications w' = notifications w
  /\ mail_attempts w' = mail_attempts w /\ published w' = published w
  /\ comment_seq w' = comment_seq w
  /\ reports_success r w w' = false
  /\ (creq_form_valid request = true -> r = Raise Http404 /\ w' = w).
Proof.
  intros Hrej r w'. subst r w'.
  destruct (creq_form_valid request) eqn:Hvalid.
  - destruct Hrej as [Hrej|Hrej]; [discriminate Hrej|].
    rewrite NewCommentView_post_unknown_topic by assumption.
    cbn [fst snd reports_success]. auto 8.
  - rewrite NewCommentView_post_invalid_form by assumption.
    cbn [fst snd]. destruct w. unfold reports_success, set_flash.
    cbn [flash comments notifications mail_attempts published comment_seq].
    rewrite skipn_length_app. cbn. repeat split; discriminate.
Qed.

Lemma comment_rejected_leaves_no_trace_witness :
  let run := NewCommentView_post site_env
               (mkCommentRequest carol "Nice" true 40) "general" "welcome" 99
               one_comment_world in
  comments (snd run) = comments one_comment_world
  /\ notifications (snd run) = notifications one_comment_world
  /\ mail_attempts (snd run) = mail_attempts one_comment_world
  /\ published (snd run) = published one_comment_world
  /\ comment_seq (snd run) = comment_seq one_comment_world
  /\ reports_success (fst run) one_comment_world (snd run) = false
  /\ (true = true -> fst run = Raise Http404 /\ snd run = one_comment_world).
Proof.
  apply (comment_rejected_leaves_no_trace site_env
           (mkCommentRequest carol "Nice" true 40) "general" "welcome" 99
           one_comment_world).
  right. reflexivity.
Defined.

(** X4.  A comment-create request hands at most one message to the mail
    transport; the message goes to the address of the author of the topic
    alone, from the configured sender, and only when the author is not among
    the earlier commenters the resolver returned. *)
Theorem comment_mail_only_to_author (env : Env) (request : CommentRequest)
    (forum slug_arg : string) (id : Z) (w : World) :
  let w' := snd (NewCommentView_post env request forum slug_arg id w) in
  (List.length (mails_added w w') <= 1)%nat
  /\ forall m, In m (mails_added w w') ->
       exists topic,
         find (fun t => Z.eqb (idtopic t) id) (topics w) = Some topic
         /\ mail_to m = [email (topic_user topic)]
         /\ mail_from m = EMAIL_MUSETTE env
         /\ truthy (EMAIL_MUSETTE env) = true
         /\ ~ In (author topic) (resolved request topic w).
Proof.
  intros w'.
  destruct (NewCommentView_post_cases env request forum slug_arg id w)
    as [(_ & _ & Hm & _) | (topic & _ & Hfind & _ & _ & Hm)];
    fold w' in Hm; unfold mails_added; rewrite Hm.
  - rewrite skipn_all. split; [cbn; lia | intros m []].
  - rewrite skipn_length_app. unfold mail_called.
    destruct (truthy (EMAIL_MUSETTE env)) eqn:Hs;
      [destruct (author_added request topic w) eqn:Ha|];
      cbn [andb]; (split; [cbn; lia|]); intros m0 Hin; cbn [In] in Hin;
      try contradiction.
    destruct Hin as [<-|[]]. exists topic. unfold comment_mail, email_recipients.
    rewrite Ha. cbn [mail_to mail_from]. repeat split; try assumption.
    unfold author_added in Ha. now apply negb_true_iff, mem_false_In in Ha.
Qed.

(** X5.  When the mail transport fails during a comment-create request, the
    error is raised to the caller: the comment and the notification rows,
    written before, stay; nothing is published and no success is
    reported. *)
Theorem comment_mail_failure_propagates (env : Env) (request : CommentRequest)
    (forum slug_arg : string) (id : Z) (topic : Topic) (w : World) :
  creq_form_valid request = true ->
  find (fun t => Z.eqb (idtopic t) id) (topics w) = Some topic ->
  mail_called env request topic w = true ->
  smtp_ok env (comment_mail env request forum slug_arg topic w) = false ->
  let r := fst (NewCommentView_post env request forum slug_arg id w) in
  let w' := snd (NewCommentView_post env request forum slug_arg id w) in
  r = Raise SMTPException
  /\ comments w' = comments w ++ [comment_saved request topic w]
  /\ rows_added w w' = rows_written request topic w
  /\ payloads_added w w' = []
  /\ reports_success r w w' = false.
Proof.
  intros Hvalid Hfind Hcalled Hfail r w'.
  destruct (NewCommentView_post_summary env request forum slug_arg id topic w
              Hvalid Hfind) as (Hc & Hn & _ & Hp & _ & Hr).
  fold r in Hr. fold w' in Hc, Hn, Hp.
  rewrite Hcalled, Hfail in *. cbn [negb andb] in *.
  rewrite app_nil_r in Hp.
  unfold rows_added, payloads_added.
  rewrite Hn, Hp, Hr, skipn_length_app, skipn_all.
  repeat split; try reflexivity; assumption.
Qed.

Lemma comment_mail_failure_propagates_witness :
  let env := mkEnv "http://forum.example.org/" "Musette" "noreply@example.org"
               "/static/" (fun _ => false) true (fun _ => "p") (fun s => s)
               (fun s => s) in
  let request := mkCommentRequest carol "Nice" true 40 in
  let run := NewCommentView_post env request "general" "welcome" 7
               one_comment_world in
  fst run = Raise SMTPException
  /\ comments (snd run)
     = comments one_comment_world
       ++ [comment_saved request welcome one_comment_world]
  /\ rows_added one_comment_world (snd run)
     = rows_written request welcome one_comment_world
  /\ payloads_added one_comment_world (snd run) = []
  /\ reports_success (fst run) one_comment_world (snd run) = false.
Proof.
  apply (comment_mail_failure_propagates
           (mkEnv "http://forum.example.org/" "Musette" "noreply@example.org"
              "/static/" (fun _ => false) true (fun _ => "p") (fun s => s)
              (fun s => s))
           (mkCommentRequest carol "Nice" true 40) "general" "welcome" 7
           welcome one_comment_world);
    reflexivity.
Defined.

(** ** What a topic-create request writes *)

(** The moderator loop touches nothing but the log of the mail transport,
    and what it hands over are the messages for moderators of the forum. *)
Lemma moderators_loop_frame (env : Env) (forum : Forum) (l : list User) :
  forall w, exists r ms,
    for_each l (mail_moderator env forum) w
    = (r, set_mail_attempts (fun a => a ++ ms) w)
    /\ forall m, In m ms -> exists u, In u l /\ m = moderator_mail env forum u.
Proof.
  destruct (truthy (EMAIL_MUSETTE env)) eqn:Hs.
  - induction l as [|u l IH]; intros w.
    + exists (Return tt), []. rewrite set_mail_attempts_nil.
      split; [reflexivity | intros m []].
    + cbn [for_each]. unfold bind. rewrite mail_moderator_run by assumption.
      destruct (smtp_ok env (moderator_mail env forum u)).
      * destruct (IH (set_mail_attempts
                        (fun a => a ++ [moderator_mail env forum u]) w))
          as (r & ms & Hrun & Hms).
        exists r, (moderator_mail env forum u :: ms).
        rewrite Hrun, set_mail_attempts_app. split; [reflexivity|].
        intros m [<-|Hm]; [exists u; split; [now left | reflexivity]|].
        destruct (Hms m Hm) as (u' & Hu' & ->). exists u'. split; [now right|].
        reflexivity.
      * exists (Raise SMTPException), [moderator_mail env forum u].
        split; [reflexivity|].
        intros m [<-|[]]. exists u. split; [now left | reflexivity].
  - intros w. exists (Return tt), [].
    rewrite moderators_loop_disabled, set_mail_attempts_nil by assumption.
    split; [reflexivity | intros m []].
Qed.

Lemma NewTopicView_post_invalid_form (env : Env) (request : TopicRequest)
    (forum : string) (w : World) :
  treq_form_valid request = false ->
  NewTopicView_post env request forum w
  = (Return (Render "musette/new_topic.html"),
     set_flash (fun l => l ++ [(ERROR, "Form invalid")]) w).
Proof.
  intros Hinvalid. unfold NewTopicView_post. rewrite Hinvalid. reflexivity.
Qed.

Lemma NewTopicView_post_unknown_forum (env : Env) (request : TopicRequest)
    (forum : string) (w : World) :
  treq_form_valid request = true ->
  find (fun f => String.eqb (forum_name f) forum) (forums w) = None ->
  NewTopicView_post env request forum w = (Raise Http404, w).
Proof.
  intros Hvalid Hfind. unfold NewTopicView_post. rewrite Hvalid.
  unfold bind at 1. unfold get_forum_or_404. now rewrite Hfind.
Qed.

(** The ways a topic-create request can go: nothing but a flash message, or
    the moderator loop followed, unless it raised, by the saved topic. *)
Lemma NewTopicView_post_cases (env : Env) (request : TopicRequest)
    (forum : string) (w : World) :
  let w' := snd (NewTopicView_post env request forum w) in
  (exists fl, w' = set_flash fl w
              /\ (treq_form_valid request = false
                  \/ find (fun f => String.eqb (forum_name f) forum) (forums w)
                     = None))
  \/ (exists forum_obj ms,
        treq_form_valid request = true
        /\ find (fun f => String.eqb (forum_name f) forum) (forums w)
           = Some forum_obj
        /\ (forall m, In m ms ->
              is_moderate forum_obj = true
              /\ user_in (treq_user request) (moderators forum_obj) = false
              /\ exists u, In u (moderators forum_obj)
                           /\ m = moderator_mail env forum_obj u)
        /\ (w' = set_mail_attempts (fun a => a ++ ms) w
            \/ w' = topic_done env request forum_obj
                      (negb (is_moderate forum_obj)
                       || user_in (treq_user request) (moderators forum_obj))
                      (set_mail_attempts (fun a => a ++ ms) w)
                      (set_mail_attempts (fun a => a ++ ms) w))).
Proof.
  intros w'. subst w'.
  destruct (treq_form_valid request) eqn:Hvalid.
  2:{ left. rewrite NewTopicView_post_invalid_form by assumption.
      cbn [snd]. eauto. }
  destruct (find (fun f => String.eqb (forum_name f) forum) (forums w))
    as [forum_obj|] eqn:Hfind.
  2:{ left. rewrite NewTopicView_post_unknown_forum by assumption.
      exists (fun l => l). cbn [snd]. split; [now destruct w | now right]. }
  right. exists forum_obj.
  destruct (is_moderate forum_obj) eqn:Hmod;
    [destruct (user_in (treq_user request) (moderators forum_obj)) eqn:Huser|].
  - exists []. rewrite set_mail_attempts_nil.
    rewrite (NewTopicView_post_published env request forum forum_obj w)
      by auto.
    cbn [snd negb orb].
    split; [reflexivity|]. split; [reflexivity|].
    split; [intros m []|]. now right.
  - rewrite (NewTopicView_post_held env request forum forum_obj w)
      by assumption.
    destruct (moderators_loop_frame env forum_obj (moderators forum_obj) w)
      as (r & ms & Hrun & Hms).
    exists ms. rewrite Hrun.
    split; [reflexivity|]. split; [reflexivity|]. split.
    + intros m Hm. split; [reflexivity|]. split; [reflexivity|].
      now apply Hms.
    + destruct r as [[]|e]; cbn [snd negb orb]; [now right | now left].
  - exists []. rewrite set_mail_attempts_nil.
    rewrite (NewTopicView_post_published env request forum forum_obj w)
      by auto.
    cbn [snd negb orb].
    split; [reflexivity|]. split; [reflexivity|].
    split; [intros m []|]. now right.
Qed.

(** X6.  A topic-create request writes no comment, notification or published
    message; it saves at most one topic, and a topic it saves belongs to
    the posting user and the forum named in the request and is approved
    exactly when the forum is not moderated or the user is one of its
    moderators.  This holds whatever the mail transport does. *)
Theorem topic_saved_as_gate_decides (env : Env) (request : TopicRequest)
    (forum : string) (w : World) :
  let w' := snd (NewTopicView_post env request forum w) in
  comments w' = comments w /\ notifications w' = notifications w
  /\ published w' = published w /\ forums w' = forums w
  /\ (List.length (topics_added w w') <= 1)%nat
  /\ forall t, In t (topics_added w w') ->
       exists forum_obj,
         treq_form_valid request = true
         /\ find (fun f => String.eqb (forum_name f) forum) (forums w)
            = Some forum_obj
         /\ idtopic t = topic_seq w
         /\ topic_user t = treq_user request
         /\ topic_forum t = idforum forum_obj
         /\ moderate t
            = negb (is_moderate forum_obj)
              || user_in (treq_user request) (moderators forum_obj).
Proof.
  intros w'.
  destruct (NewTopicView_post_cases env request forum w)
    as [(fl & Hw & _) | (forum_obj & ms & Hvalid & Hfind & _ & [Hw|Hw])];
    fold w' in Hw; rewrite Hw; clear Hw w'.
  - unfold topics_added. destruct w. cbn. rewrite skipn_all.
    repeat split; [cbn; lia | intros t []].
  - unfold topics_added. destruct w. cbn. rewrite skipn_all.
    repeat split; [cbn; lia | intros t []].
  - rewrite topics_added_done.
    split; [|split; [|split; [|split; [|split]]]];
      try (destruct w; reflexivity).
    intros t [<-|[]]. exists forum_obj. cbn. auto 8.
Qed.

(** X7.  A topic-create request hands a message to the mail transport only for a
    moderated forum and a posting user who is not one of its moderators, and
    then only messages addressed to one moderator of that forum each. *)
Theorem moderator_mail_only_when_held (env : Env) (request : TopicRequest)
    (forum : string) (w : World) :
  let w' := snd (NewTopicView_post env request forum w) in
  forall m, In m (mails_added w w') ->
    exists forum_obj u,
      find (fun f => String.eqb (forum_name f) forum) (forums w)
      = Some forum_obj
      /\ is_moderate forum_obj = true
      /\ user_in (treq_user request) (moderators forum_obj) = false
      /\ In u (moderators forum_obj)
      /\ m = moderator_mail env forum_obj u
      /\ mail_to m = [email u].
Proof.
  intros w'.
  destruct (NewTopicView_post_cases env request forum w)
    as [(fl & Hw & _) | (forum_obj & ms & Hvalid & Hfind & Hms & Hw)];
    fold w' in Hw.
  - rewrite Hw. unfold mails_added. destruct w. cbn. rewrite skipn_all.
    intros m [].
  - assert (Hadded : mails_added w w' = ms).
    { destruct Hw as [Hw|Hw]; rewrite Hw;
        [|apply mails_added_done].
      unfold mails_added. destruct w. cbn. apply skipn_length_app. }
    rewrite Hadded. intros m Hm.
    destruct (Hms m Hm) as (Hmod & Huser & u & Hu & ->).
    exists forum_obj, u. auto 8.
Qed.

Lemma moderator_mail_only_when_held_witness :
  exists forum_obj u,
    find (fun f => String.eqb (forum_name f) "general") (forums quiet_world)
    = Some forum_obj
    /\ is_moderate forum_obj = true
    /\ user_in alice (moderators forum_obj) = false
    /\ In u (moderators forum_obj)
    /\ moderator_mail site_env general carol
       = moderator_mail site_env forum_obj u
    /\ mail_to (moderator_mail site_env general carol) = [email u].
Proof.
  apply (moderator_mail_only_when_held site_env
           (mkTopicRequest alice "Hello" None true 40 "r") "general"
           quiet_world (moderator_mail site_env general carol)).
  vm_compute. right. now left.
Defined.

(** ** The trailing slash of [SITE_URL] *)

Lemma append_assoc (a b c : string) :
  ((a ++ b) ++ c = a ++ (b ++ c))%string.
Proof.
  induction a as [|x a IH]; simpl; [reflexivity | now rewrite IH].
Qed.

Lemma substring_at_end (s t : string) :
  substring (String.length s) (String.length t) (s ++ t) = t.
Proof.
  induction s as [|c s IH]; simpl; [|exact IH].
  induction t as [|c t IH]; simpl; [reflexivity | now rewrite IH].
Qed.

Lemma endswith_append (s t : string) : endswith (s ++ t) t = true.
Proof.
  unfold endswith. rewrite length_append.
  replace (String.length s + String.length t - String.length t)%nat
    with (String.length s) by lia.
  rewrite substring_at_end, String.eqb_refl, andb_true_r.
  apply Nat.leb_le. lia.
Qed.

Lemma drop_last_append (s : string) (c : ascii) :
  drop_last (s ++ String c EmptyString) = s.
Proof.
  unfold drop_last. rewrite length_append. simpl String.length.
  replace (String.length s + 1 - 1)%nat with (String.length s) by lia.
  induction s as [|x s IH]; simpl; [reflexivity | now rewrite IH].
Qed.

Lemma for_each_ext {A} (f g : A -> M unit) (l : list A) :
  (forall x w, f x w = g x w) ->
  forall w, for_each l f w = for_each l g w.
Proof.
  intros Hfg. induction l as [|x l IH]; intros w; simpl; [reflexivity|].
  unfold bind. rewrite Hfg. destruct (g x w) as [[[]|e] w1]; [apply IH|].
  reflexivity.
Qed.

Lemma mail_moderator_trailing_slash (env : Env) (forum : Forum) (u : User)
    (w : World) :
  endswith (SITE_URL env) "/" = false ->
  mail_moderator (with_site_url (SITE_URL env ++ "/") env) forum u w
  = mail_moderator env forum u w.
Proof.
  intros Hs. unfold mail_moderator, send_mail.
  cbn [with_site_url SITE_URL SITE_NAME EMAIL_MUSETTE smtp_ok].
  rewrite endswith_append, Hs, append_assoc. reflexivity.
Qed.

(** X8.  Writing [SITE_URL] with or without its trailing slash makes no
    difference: the topic-create and the comment-create request run the same
    way and send the same messages. *)
Theorem site_url_trailing_slash (env : Env) (trequest : TopicRequest)
    (crequest : CommentRequest) (forum slug_arg : string) (id : Z)
    (w : World) :
  endswith (SITE_URL env) "/" = false ->
  let env' := with_site_url (SITE_URL env ++ "/") env in
  NewTopicView_post env' trequest forum w
  = NewTopicView_post env trequest forum w
  /\ NewCommentView_post env' crequest forum slug_arg id w
     = NewCommentView_post env crequest forum slug_arg id w.
Proof.
  intros Hs env'. split.
  - destruct (treq_form_valid trequest) eqn:Hvalid;
      [|now rewrite !NewTopicView_post_invalid_form by assumption].
    destruct (find (fun f => String.eqb (forum_name f) forum) (forums w))
      as [f|] eqn:Hfind;
      [|now rewrite !NewTopicView_post_unknown_forum by assumption].
    destruct (is_moderate f) eqn:Hmod;
      [destruct (user_in (treq_user trequest) (moderators f)) eqn:Huser|].
    + now rewrite !(NewTopicView_post_published _ trequest forum f w) by auto.
    + rewrite !(NewTopicView_post_held _ trequest forum f w) by assumption.
      rewrite (for_each_ext (mail_moderator env' f) (mail_moderator env f))
        by (intros; now apply mail_moderator_trailing_slash).
      reflexivity.
    + now rewrite !(NewTopicView_post_published _ trequest forum f w) by auto.
  - destruct (creq_form_valid crequest) eqn:Hvalid.
    + destruct (find (fun t => Z.eqb (idtopic t) id) (topics w)) as [topic|]
        eqn:Hfind.
      * rewrite !(NewCommentView_post_stages _ crequest forum slug_arg id
                    topic w) by assumption.
        unfold delivery, comment_mail, comment_payload, publish, send_mail.
        subst env'.
        cbn [with_site_url SITE_URL SITE_NAME EMAIL_MUSETTE STATIC_URL smtp_ok
             broker_up get_photo_profile mail_subject mail_message].
        rewrite endswith_append, Hs, drop_last_append. reflexivity.
      * now rewrite !NewCommentView_post_unknown_topic by assumption.
    + now rewrite !NewCommentView_post_invalid_form by assumption.
Qed.

Lemma site_url_trailing_slash_witness :
  let env := with_site_url "http://forum.example.org" site_env in
  let env' := with_site_url (SITE_URL env ++ "/") env in
  let trequest := mkTopicRequest alice "Hello" None true 40 "r" in
  let crequest := mkCommentRequest carol "Nice" true 40 in
  NewTopicView_post env' trequest "general" quiet_world
  = NewTopicView_post env trequest "general" quiet_world
  /\ NewCommentView_post env' crequest "general" "welcome" 7 one_comment_world
     = NewCommentView_post env crequest "general" "welcome" 7 one_comment_world.
Proof.
  split.
  - apply (site_url_trailing_slash
             (with_site_url "http://forum.example.org" site_env)
             (mkTopicRequest alice "Hello" None true 40 "r")
             (mkCommentRequest carol "Nice" true 40) "general" "welcome" 7
             quiet_world).
    reflexivity.
  - apply (site_url_trailing_slash
             (with_site_url "http://forum.example.org" site_env)
             (mkTopicRequest alice "Hello" None true 40 "r")
             (mkCommentRequest carol "Nice" true 40) "general" "welcome" 7
             one_comment_world).
    reflexivity.
Defined.

(** ** Posting a comment and deleting it again *)

(** X9.  When the posting user deletes the comment just posted, the table of
    comments is back to what it was, and no notification row points at the
    identifier of that comment any more; the other rows are those from
    before the post.  The identifier handed out by the sequence is assumed
    not to be in use. *)
Theorem post_then_delete_comment (env : Env) (request : CommentRequest)
    (forum slug_arg : string) (id : Z) (topic : Topic) (w : World) :
  creq_form_valid request = true ->
  find (fun t => Z.eqb (idtopic t) id) (topics w) = Some topic ->
  (forall c, In c (comments w) -> idcomment c <> comment_seq w) ->
  let w1 := snd (NewCommentView_post env request forum slug_arg id w) in
  let w2 := snd (DeleteCommentView_post (user_id (creq_user request)) forum
                   slug_arg id (comment_seq w) w1) in
  comments w2 = comments w
  /\ notifications w2
     = filter (fun n => negb (Z.eqb (idobject n) (comment_seq w)))
              (notifications w)
  /\ ((forall n, In n (notifications w) -> idobject n <> comment_seq w) ->
      notifications w2 = notifications w).
Proof.
  intros Hvalid Hfind Hfresh w1 w2.
  destruct (NewCommentView_post_summary env request forum slug_arg id topic w
              Hvalid Hfind) as (Hc & Hn & _).
  fold w1 in Hc, Hn. subst w2. rewrite DeleteCommentView_post_run.
  cbn [snd]. destruct w1 as [fs ts cs ns tq cq ma pb fl].
  cbn [set_flash set_notifications set_comments comments notifications] in *.
  subst cs ns.
  assert (Hrows : filter (fun n => negb (Z.eqb (idobject n) (comment_seq w)))
                         (rows_written request topic w) = []).
  { unfold rows_written. destruct (loop_guard request topic w); [|reflexivity].
    induction (recipients request topic w) as [|u l IH]; [reflexivity|].
    cbn. rewrite Z.eqb_refl. exact IH. }
  split; [|split].
  - rewrite filter_app. cbn. rewrite !Z.eqb_refl. cbn. rewrite app_nil_r.
    apply filter_all. intros c Hc.
    apply Hfresh in Hc. apply Z.eqb_neq in Hc. now rewrite Hc.
  - now rewrite filter_app, Hrows, app_nil_r.
  - intros Hold. rewrite filter_app, Hrows, app_nil_r.
    apply filter_all. intros n Hn. apply Hold in Hn.
    apply Z.eqb_neq in Hn. now rewrite Hn.
Qed.

Lemma post_then_delete_comment_witness :
  let request := mkCommentRequest carol "Nice" true 40 in
  let w1 := snd (NewCommentView_post site_env request "general" "welcome" 7
                   one_comment_world) in
  let w2 := snd (DeleteCommentView_post (user_id (creq_user request))
                   "general" "welcome" 7 (comment_seq one_comment_world) w1) in
  comments w2 = comments one_comment_world
  /\ notifications w2
     = filter (fun n => negb (Z.eqb (idobject n) (comment_seq one_comment_world)))
              (notifications one_comment_world)
  /\ ((forall n, In n (notifications one_comment_world) ->
                 idobject n <> comment_seq one_comment_world) ->
      notifications w2 = notifications one_comment_world).
Proof.
  apply (post_then_delete_comment site_env
           (mkCommentRequest carol "Nice" true 40) "general" "welcome" 7
           welcome one_comment_world); try reflexivity.
  intros c [<-|[]]. cbn. lia.
Defined.

(** ** Editing a comment *)

Lemma EditCommentView_post_run (iduser_req : Z) (d : string)
    (forum slug_arg : string) (idtopic_arg idcomment_arg : Z) (w : World) :
  truthy d = true ->
  EditCommentView_post iduser_req (Some d) forum slug_arg idtopic_arg
    idcomment_arg w
  = (Return (HttpResponseRedirect
               ("/topic/" ++ forum ++ "/" ++ slug_arg ++ "/"
                  ++ str idtopic_arg ++ "/")%string),
     set_flash (fun l => l ++ [(SUCCESS, "Comment edited")])
       (set_comments
          (map (fun c =>
             if Z.eqb (idcomment c) idcomment_arg
                && Z.eqb (user_id (comment_user c)) iduser_req
             then set_description d c else c))
          w)).
Proof.
  intros Hd. unfold EditCommentView_post. rewrite Hd. reflexivity.
Qed.

Lemma EditCommentView_post_blank (iduser_req : Z) (update : option string)
    (forum slug_arg : string) (idtopic_arg idcomment_arg : Z) (w : World) :
  match update with Some d => truthy d | None => false end = false ->
  EditCommentView_post iduser_req update forum slug_arg idtopic_arg
    idcomment_arg w
  = (Return (HttpResponseRedirect
               ("/topic/" ++ forum ++ "/" ++ slug_arg ++ "/"
                  ++ str idtopic_arg ++ "/")%string), w).
Proof.
  intros Hd. unfold EditCommentView_post. destruct update as [d|];
    [rewrite Hd|]; reflexivity.
Qed.

(** X10.  An edit request changes nothing but descriptions, and only those of
    comments that carry the requested identifier and belong to the
    requesting user; with a missing or empty description it changes nothing
    at all. *)
Theorem edit_comment_frame (iduser_req : Z) (update : option string)
    (forum slug_arg : string) (idtopic_arg idcomment_arg : Z) (w : World) :
  let w' := snd (EditCommentView_post iduser_req update forum slug_arg
                   idtopic_arg idcomment_arg w) in
  notifications w' = notifications w /\ topics w' = topics w
  /\ Forall2
       (fun c c' =>
          idcomment c' = idcomment c /\ topic_id c' = topic_id c
          /\ comment_user c' = comment_user c
          /\ comment_date c' = comment_date c
          /\ (c' = c
              \/ (idcomment c = idcomment_arg
                  /\ user_id (comment_user c) = iduser_req
                  /\ update = Some (description c')
                  /\ description c' <> "")))
       (comments w) (comments w')
  /\ (match update with Some d => truthy d | None => false end = false ->
      w' = w).
Proof.
  intros w'. subst w'.
  destruct (match update with Some d => truthy d | None => false end) eqn:Hd.
  - destruct update as [d|]; [|discriminate Hd].
    rewrite EditCommentView_post_run by assumption. cbn [snd].
    destruct w. cbn [set_flash set_comments notifications topics comments].
    repeat split; try discriminate.
    induction comments0 as [|c cs IH]; cbn [map]; constructor; [|exact IH].
    destruct (Z.eqb_spec (idcomment c) idcomment_arg) as [Hi|Hi];
      [destruct (Z.eqb_spec (user_id (comment_user c)) iduser_req) as [Hu|Hu]|];
      cbn [andb]; auto 8.
    cbn. repeat split. right. repeat split; try assumption.
    intros He. rewrite He in Hd. discriminate Hd.
  - rewrite EditCommentView_post_blank by assumption. cbn [snd].
    repeat split. induction (comments w) as [|c cs IH]; constructor; auto 8.
Qed.

(** X11.  A request to edit a comment of somebody else, or one that does not
    exist, leaves every comment as it is and is answered with the success
    message all the same. *)
Theorem edit_foreign_comment_reports_success (iduser_req : Z) (d : string)
    (forum slug_arg : string) (idtopic_arg idcomment_arg : Z) (w : World) :
  truthy d = true ->
  (forall c, In c (comments w) -> idcomment c = idcomment_arg ->
             user_id (comment_user c) <> iduser_req) ->
  let r := fst (EditCommentView_post iduser_req (Some d) forum slug_arg
                  idtopic_arg idcomment_arg w) in
  let w' := snd (EditCommentView_post iduser_req (Some d) forum slug_arg
                   idtopic_arg idcomment_arg w) in
  comments w' = comments w /\ reports_success r w w' = true.
Proof.
  intros Hd Hother r w'. subst r w'.
  rewrite EditCommentView_post_run by assumption. cbn [fst snd].
  destruct w. unfold reports_success.
  cbn [set_flash set_comments comments flash] in *.
  rewrite skipn_length_app. split; [|reflexivity].
  induction comments0 as [|c cs IH]; [reflexivity|]. cbn [map].
  rewrite IH by (intros; apply Hother; [now right | assumption]).
  destruct (Z.eqb_spec (idcomment c) idcomment_arg) as [Hi|Hi];
    [|reflexivity].
  specialize (Hother c (or_introl eq_refl) Hi).
  apply Z.eqb_neq in Hother. now rewrite Hother.
Qed.

Lemma edit_foreign_comment_reports_success_witness :
  let run := EditCommentView_post 2 (Some "Edited") "general" "welcome" 7 5
               colliding_world in
  comments (snd run) = comments colliding_world
  /\ reports_success (fst run) colliding_world (snd run) = true.
Proof.
  apply (edit_foreign_comment_reports_success 2 "Edited" "general" "welcome"
           7 5 colliding_world); [reflexivity|].
  intros c [Hc|[Hc|[]]] Hid; subst c; simpl in *; lia.
Defined.

(** X12.  The last edit wins: after two edit requests of the same user for the
    same comment, the second with a non-empty description, the comments are
    those the second request alone would have left. *)
Theorem edit_comment_last_wins (iduser_req : Z) (first : option string)
    (d : string) (forum slug_arg : string) (idtopic_arg idcomment_arg : Z)
    (w : World) :
  truthy d = true ->
  let w1 := snd (EditCommentView_post iduser_req first forum slug_arg
                   idtopic_arg idcomment_arg w) in
  comments (snd (EditCommentView_post iduser_req (Some d) forum slug_arg
                   idtopic_arg idcomment_arg w1))
  = comments (snd (EditCommentView_post iduser_req (Some d) forum slug_arg
                     idtopic_arg idcomment_arg w)).
Proof.
  intros Hd w1. subst w1.
  rewrite !(EditCommentView_post_run iduser_req d) by assumption. cbn [snd].
  destruct (match first with Some d1 => truthy d1 | None => false end) eqn:H1.
  - destruct first as [d1|]; [|discriminate H1].
    rewrite EditCommentView_post_run by assumption. cbn [snd].
    destruct w. cbn [set_flash set_comments comments].
    rewrite map_map. apply map_ext. intros c.
    destruct (Z.eqb (idcomment c) idcomment_arg
              && Z.eqb (user_id (comment_user c)) iduser_req) eqn:Hm.
    + cbn [set_description idcomment comment_user]. now rewrite Hm.
    + now rewrite Hm.
  - now rewrite EditCommentView_post_blank by assumption.
Qed.

Lemma edit_comment_last_wins_witness :
  let w1 := snd (EditCommentView_post 1 (Some "First") "general" "welcome" 7 5
                   colliding_world) in
  comments (snd (EditCommentView_post 1 (Some "Second") "general" "welcome"
                   7 5 w1))
  = comments (snd (EditCommentView_post 1 (Some "Second") "general" "welcome"
                     7 5 colliding_world)).
Proof.
  apply (edit_comment_last_wins 1 (Some "First") "Second" "general" "welcome"
           7 5 colliding_world).
  reflexivity.
Defined.

(** ** Marking as viewed, seen from the other users *)

(** X13.  Marking the notifications of one user as viewed adds and removes no
    row, changes no field but [is_view], never turns a viewed row back to
    pending, and leaves the pending count of every other user as it was. *)
Theorem mark_viewed_frame (user other : Z) (n : nat) (w : World) :
  let w' := snd (SetNotifications user w) in
  Forall2
    (fun r r' =>
       iduser r' = iduser r /\ idobject r' = idobject r /\ date r' = date r
       /\ is_topic r' = is_topic r /\ is_comment r' = is_comment r
       /\ is_view r' = is_view r || Z.eqb (iduser r) user)
    (notifications w) (notifications w')
  /\ comments w' = comments w /\ topics w' = topics w
  /\ (other <> user ->
      get_pending_notifications other w = (Return n, w) ->
      get_pending_notifications other w' = (Return n, w')).
Proof.
  intros w'. subst w'.
  unfold SetNotifications, bind, modify, ret. cbn [snd].
  destruct w as [fs ts cs ns tq cq ma pb fl].
  cbn [set_notifications notifications comments topics].
  split; [|split; [reflexivity|split; [reflexivity|]]].
  - induction ns as [|r ns IH]; cbn [map]; constructor; [|exact IH].
    unfold mark_viewed. destruct (Z.eqb (iduser r) user); cbn;
      rewrite ?orb_true_r, ?orb_false_r; auto 8.
  - intros Hne. unfold get_pending_notifications, gets.
    cbn [set_notifications notifications].
    intros Hn. injection Hn as Hn. do 2 f_equal. rewrite <- Hn. clear Hn.
    assert (Hrow : forall r,
              negb (is_view (mark_viewed user r))
              && Z.eqb (iduser (mark_viewed user r)) other
              = negb (is_view r) && Z.eqb (iduser r) other).
    { intros r. unfold mark_viewed.
      destruct (Z.eqb_spec (iduser r) user) as [He|Hd]; [|reflexivity].
      cbn [is_view iduser negb andb].
      assert (Ho : Z.eqb (iduser r) other = false)
        by (apply Z.eqb_neq; congruence).
      now rewrite Ho, andb_false_r. }
    induction ns as [|r ns IH]; [reflexivity|]. cbn [map filter].
    cbv beta. rewrite Hrow.
    destruct (negb (is_view r) && Z.eqb (iduser r) other);
      cbn [List.length]; now rewrite IH.
Qed.

(** X14.  Opening the list of notifications marks them as [SetNotifications]
    does: whatever the helper that reads the list returns, as long as it only
    reads, the user's pending count is 0 afterwards, and the page template is
    chosen by the kind of request alone. *)
Theorem all_notification_clears_pending
    (get_notifications : Z -> M (list Notification)) (user : Z)
    (is_ajax : bool) (w : World) :
  (forall u w0, exists l, get_notifications u w0 = (Return l, w0)) ->
  let r := fst (AllNotification_get get_notifications user is_ajax w) in
  let w' := snd (AllNotification_get get_notifications user is_ajax w) in
  w' = snd (SetNotifications user w)
  /\ get_pending_notifications user w' = (Return 0%nat, w')
  /\ r = Return (Render (if is_ajax then "musette/all_notification.html"
                         else "musette/all_notification_index.html")).
Proof.
  intros Hread r w'. subst r w'.
  unfold AllNotification_get, SetNotifications, bind, modify, ret.
  destruct (Hread user (set_notifications (map (mark_viewed user)) w))
    as [l Hl].
  rewrite Hl. cbn [fst snd]. repeat split.
  unfold get_pending_notifications, gets. destruct w.
  cbn [set_notifications notifications]. now rewrite no_pending_after_mark.
Qed.

Lemma all_notification_clears_pending_witness :
  let get_notifications :=
    fun u => gets (fun w0 => filter (fun n => Z.eqb (iduser n) u)
                                    (notifications w0)) in
  let run := AllNotification_get get_notifications 2 false colliding_world in
  snd run = snd (SetNotifications 2 colliding_world)
  /\ get_pending_notifications 2 (snd run) = (Return 0%nat, snd run)
  /\ fst run = Return (Render "musette/all_notification_index.html").
Proof.
  apply (all_notification_clears_pending
           (fun u => gets (fun w0 => filter (fun n => Z.eqb (iduser n) u)
                                            (notifications w0)))
           2 false colliding_world).
  intros u w0. eexists. reflexivity.
Defined.

(** ** Counting the comments of a topic *)

(** X15.  A comment-create request with a valid form on an existing topic raises
    the comment count of that topic by one, whatever happens to the e-mail
    and the publish call afterwards, and leaves the count of every other
    topic as it was. *)
Theorem comment_raises_topic_count (env : Env) (request : CommentRequest)
    (forum slug_arg : string) (id other : Z) (topic : Topic) (w : World)
    (n m : nat) :
  creq_form_valid request = true ->
  find (fun t => Z.eqb (idtopic t) id) (topics w) = Some topic ->
  get_tot_comments id w = (Return n, w) ->
  get_tot_comments other w = (Return m, w) ->
  other <> id ->
  let w' := snd (NewCommentView_post env request forum slug_arg id w) in
  get_tot_comments id w' = (Return (S n), w')
  /\ get_tot_comments other w' = (Return m, w').
Proof.
  intros Hvalid Hfind Hn Hm Hother w'.
  destruct (NewCommentView_post_summary env request forum slug_arg id topic w
              Hvalid Hfind) as (Hc & _).
  fold w' in Hc.
  assert (Hid : idtopic topic = id).
  { apply find_some in Hfind as [_ H]. now apply Z.eqb_eq in H. }
  unfold get_tot_comments, gets in *.
  injection Hn as Hn. injection Hm as Hm.
  rewrite Hc, !filter_app, !length_app, Hn, Hm.
  cbn [filter comment_saved topic_id]. rewrite Hid, Z.eqb_refl.
  apply Z.eqb_neq in Hother. rewrite Z.eqb_sym in Hother. rewrite Hother.
  cbn [List.length]. split; do 2 f_equal; lia.
Qed.

Lemma comment_raises_topic_count_witness :
  let w' := snd (NewCommentView_post site_env
                   (mkCommentRequest carol "Nice" true 40) "general" "welcome"
                   7 one_comment_world) in
  get_tot_comments 7 w' = (Return 2%nat, w')
  /\ get_tot_comments 8 w' = (Return 0%nat, w').
Proof.
  apply (comment_raises_topic_count site_env
           (mkCommentRequest carol "Nice" true 40) "general" "welcome" 7 8
           welcome one_comment_world 1 0);
    try reflexivity.
  lia.
Defined.

(** ** Deleting a topic *)

(** X16.  Only the author can delete a topic: for anybody else, and for a topic
    that does not exist, the request ends with 404 before the attachment
    folder, the related rows or the topic are touched. *)
Theorem delete_topic_only_by_author
    (remove_folder_attachment delete_related_to_topic : Z -> M unit)
    (reverse_forum : string -> string) (iduser_req : Z) (forum : string)
    (idtopic_arg : Z) (w : World) :
  (forall t, In t (topics w) -> idtopic t = idtopic_arg ->
             user_id (topic_user t) <> iduser_req) ->
  DeleteTopicView_get remove_folder_attachment delete_related_to_topic
    reverse_forum iduser_req forum idtopic_arg w
  = (Raise Http404, w).
Proof.
  intros Hother. unfold DeleteTopicView_get, bind, get_own_topic_or_404.
  destruct (find _ (topics w)) as [t|] eqn:Hfind; [|reflexivity].
  apply find_some in Hfind as [Hin Hm].
  apply andb_true_iff in Hm as [Hi Hu].
  apply Z.eqb_eq in Hi, Hu. now apply Hother in Hi.
Qed.

Lemma delete_topic_only_by_author_witness :
  DeleteTopicView_get (fun _ => ret tt) (fun _ => ret tt)
    (fun f => ("/forum/" ++ f ++ "/")%string) 2 "general" 7 one_comment_world
  = (Raise Http404, one_comment_world).
Proof.
  apply (delete_topic_only_by_author (fun _ => ret tt) (fun _ => ret tt)
           (fun f => ("/forum/" ++ f ++ "/")%string) 2 "general" 7
           one_comment_world).
  intros t [<-|[]] _. cbn. lia.
Defined.

(** ** Forum membership *)

Lemma registered_In (idforum_ iduser_ : Z) (b : Board) :
  registered idforum_ iduser_ b = true
  <-> exists r, In r (registers b) /\ register_forum_id r = idforum_
                /\ register_user_id r = iduser_.
Proof.
  unfold registered. rewrite existsb_exists. split.
  - intros (r & Hr & Hm). apply andb_true_iff in Hm as [Hf Hu].
    apply Z.eqb_eq in Hf, Hu. eauto.
  - intros (r & Hr & Hf & Hu). exists r. split; [assumption|].
    now rewrite Hf, Hu, !Z.eqb_refl.
Qed.

(** X17.  Joining or leaving a forum that is hidden, or that does not exist, ends
    with 404 and changes nothing. *)
Theorem membership_of_hidden_forum (iduser_req now : Z) (forum : string)
    (b : Board) :
  (forall f, In f (forums (board_world b)) -> forum_name f = forum ->
             forum_hidden b (idforum f) = true) ->
  AddRegisterView_post iduser_req now forum b = (Raise Http404, b)
  /\ UnregisterView_post iduser_req forum b = (Raise Http404, b)
  /\ UsersForumView_users forum b = Raise Http404.
Proof.
  intros Hhidden.
  assert (Hnone : get_visible_forum forum b = None).
  { unfold get_visible_forum.
    destruct (find _ (forums (board_world b))) as [f|] eqn:Hfind;
      [|reflexivity].
    apply find_some in Hfind as [Hin Hm].
    apply andb_true_iff in Hm as [Hname Hvis].
    apply String.eqb_eq in Hname. rewrite (Hhidden f Hin Hname) in Hvis.
    discriminate Hvis. }
  unfold AddRegisterView_post, UnregisterView_post, UsersForumView_users.
  rewrite Hnone. auto.
Qed.

Lemma membership_of_hidden_forum_witness :
  let b := mkBoard quiet_world [mkRegister 1 3 5] (fun _ => true) in
  AddRegisterView_post 3 40 "general" b = (Raise Http404, b)
  /\ UnregisterView_post 3 "general" b = (Raise Http404, b)
  /\ UsersForumView_users "general" b = Raise Http404.
Proof.
  apply (membership_of_hidden_forum 3 40 "general"
           (mkBoard quiet_world [mkRegister 1 3 5] (fun _ => true))).
  intros f Hf Hname. reflexivity.
Defined.

(** X18.  After a user has left a forum no register of that user on that forum
    remains, however many there were; the registers of other users and on
    other forums are all kept. *)
Theorem unregister_removes_membership (iduser_req : Z) (forum : string)
    (forum_obj : Forum) (b : Board) :
  get_visible_forum forum b = Some forum_obj ->
  let b' := snd (UnregisterView_post iduser_req forum b) in
  registered (idforum forum_obj) iduser_req b' = false
  /\ (forall r, In r (registers b') <->
        In r (registers b)
        /\ ~ (register_forum_id r = idforum forum_obj
              /\ register_user_id r = iduser_req))
  /\ registers (snd (UnregisterView_post iduser_req forum b')) = registers b'.
Proof.
  intros Hforum b'. subst b'.
  assert (Hsame : forall fl rs,
            get_visible_forum forum
              (mkBoard (set_flash fl (board_world b)) rs (forum_hidden b))
            = Some forum_obj).
  { intros fl rs. rewrite <- Hforum. reflexivity. }
  unfold UnregisterView_post. rewrite Hforum. cbn [snd]. rewrite Hsame.
  cbn [snd registers].
  assert (Hiff : forall r,
            In r (filter (fun r0 =>
                    negb (Z.eqb (register_forum_id r0) (idforum forum_obj)
                          && Z.eqb (register_user_id r0) iduser_req))
                    (registers b))
            <-> In r (registers b)
                /\ ~ (register_forum_id r = idforum forum_obj
                      /\ register_user_id r = iduser_req)).
  { intros r. rewrite filter_In, negb_true_iff, andb_false_iff, !Z.eqb_neq.
    split; intros [Hin H]; (split; [assumption|]).
    - intros [Hf Hu]. destruct H; contradiction.
    - destruct (Z.eq_dec (register_forum_id r) (idforum forum_obj));
        [right|left]; [|assumption].
      intros Hu. apply H. now split. }
  split; [|split; [exact Hiff|]].
  - destruct (registered _ _ _) eqn:Hreg; [|reflexivity].
    apply registered_In in Hreg as (r & Hr & Hf & Hu). cbn [registers] in Hr.
    apply Hiff in Hr as [_ Hr]. exfalso. apply Hr. now split.
  - apply filter_all. intros r Hr. now apply filter_In in Hr.
Qed.

Lemma unregister_removes_membership_witness :
  let b := mkBoard quiet_world
             [mkRegister 1 3 5; mkRegister 1 2 6; mkRegister 1 3 7]
             (fun _ => false) in
  let b' := snd (UnregisterView_post 3 "general" b) in
  registered (idforum general) 3 b' = false
  /\ (forall r, In r (registers b') <->
        In r (registers b)
        /\ ~ (register_forum_id r = idforum general
              /\ register_user_id r = 3))
  /\ registers (snd (UnregisterView_post 3 "general" b')) = registers b'.
Proof.
  apply (unregister_removes_membership 3 "general" general
           (mkBoard quiet_world
              [mkRegister 1 3 5; mkRegister 1 2 6; mkRegister 1 3 7]
              (fun _ => false))).
  reflexivity.
Defined.

(** X19.  Joining a forum and leaving it again restores the table of registers,
    for a user who had no register on the forum before. *)
Theorem join_then_leave (iduser_req now : Z) (forum : string)
    (forum_obj : Forum) (b : Board) :
  get_visible_forum forum b = Some forum_obj ->
  registered (idforum forum_obj) iduser_req b = false ->
  let b1 := snd (AddRegisterView_post iduser_req now forum b) in
  registered (idforum forum_obj) iduser_req b1 = true
  /\ registers (snd (UnregisterView_post iduser_req forum b1)) = registers b.
Proof.
  intros Hforum Hnot b1. subst b1.
  assert (Hsame : forall fl rs,
            get_visible_forum forum
              (mkBoard (set_flash fl (board_world b)) rs (forum_hidden b))
            = Some forum_obj).
  { intros fl rs. rewrite <- Hforum. reflexivity. }
  unfold AddRegisterView_post. rewrite Hforum. cbn [snd].
  unfold UnregisterView_post. rewrite Hsame. cbn [snd registers]. split.
  - unfold registered. cbn [registers]. rewrite existsb_app. cbn.
    rewrite !Z.eqb_refl. cbn. now rewrite orb_true_r.
  - rewrite filter_app. cbn. rewrite !Z.eqb_refl. cbn. rewrite app_nil_r.
    apply filter_all. intros r Hr.
    destruct (Z.eqb (register_forum_id r) (idforum forum_obj)
              && Z.eqb (register_user_id r) iduser_req) eqn:Hm; [|reflexivity].
    assert (Hreg : registered (idforum forum_obj) iduser_req b = true).
    { unfold registered. apply existsb_exists. eauto. }
    rewrite Hreg in Hnot. discriminate Hnot.
Qed.

Lemma join_then_leave_witness :
  let b := mkBoard quiet_world [mkRegister 1 2 6] (fun _ => false) in
  let b1 := snd (AddRegisterView_post 3 40 "general" b) in
  registered (idforum general) 3 b1 = true
  /\ registers (snd (UnregisterView_post 3 "general" b1)) = registers b.
Proof.
  apply (join_then_leave 3 40 "general" general
           (mkBoard quiet_world [mkRegister 1 2 6] (fun _ => false)));
    reflexivity.
Defined.

(** X20.  The number of users the forum page shows is the length of the list the
    users page is built from: the registers of the forum followed by its
    moderators, a moderator who also joined being counted twice.  Joining
    adds one to the number of the forum joined and nothing to the others. *)
Theorem users_list_and_count (iduser_req now : Z) (forum : string)
    (forum_obj other : Forum) (b : Board) :
  get_visible_forum forum b = Some forum_obj ->
  idforum other <> idforum forum_obj ->
  let b1 := snd (AddRegisterView_post iduser_req now forum b) in
  (exists l, UsersForumView_users forum b = Return l
             /\ List.length l = get_tot_users_forum forum_obj b)
  /\ get_tot_users_forum forum_obj b1 = S (get_tot_users_forum forum_obj b)
  /\ get_tot_users_forum other b1 = get_tot_users_forum other b.
Proof.
  intros Hforum Hother b1. subst b1.
  unfold UsersForumView_users, AddRegisterView_post. rewrite Hforum.
  cbn [snd]. unfold get_tot_users_forum, register_forums. cbn [registers].
  split; [|split].
  - eexists. split; [reflexivity|]. now rewrite length_app, !length_map.
  - rewrite filter_app, length_app. cbn. rewrite Z.eqb_refl. cbn. lia.
  - rewrite filter_app, length_app. cbn.
    apply Z.eqb_neq in Hother. rewrite Z.eqb_sym in Hother. rewrite Hother.
    cbn. lia.
Qed.

Lemma users_list_and_count_witness :
  let b := mkBoard quiet_world [mkRegister 1 2 6] (fun _ => false) in
  let b1 := snd (AddRegisterView_post 3 40 "general" b) in
  (exists l, UsersForumView_users "general" b = Return l
             /\ List.length l = get_tot_users_forum general b)
  /\ get_tot_users_forum general b1 = S (get_tot_users_forum general b)
  /\ get_tot_users_forum (mkForum 2 "other" false []) b1
     = get_tot_users_forum (mkForum 2 "other" false []) b.
Proof.
  apply (users_list_and_count 3 40 "general" general
           (mkForum 2 "other" false [])
           (mkBoard quiet_world [mkRegister 1 2 6] (fun _ => false)));
    [reflexivity | cbn; lia].
Defined.

(** ** Rendering notifications *)


Lemma find_none_app {A} (p : A -> bool) (l l' : list A) :
  (forall x, In x l -> p x = false) -> find p (l ++ l') = find p l'.
Proof.
  induction l as [|y l IH]; intros H; simpl; [reflexivity|].
  rewrite (H y) by now left. apply IH. intros; apply H; now right.
Qed.



(** A comment-create request leaves the forums and the topics alone. *)
Lemma NewCommentView_post_keeps_topics (env : Env) (request : CommentRequest)
    (forum slug_arg : string) (id : Z) (w : World) :
  let w' := snd (NewCommentView_post env request forum slug_arg id w) in
  forums w' = forums w /\ topics w' = topics w.
Proof.
  intros w'. subst w'.
  destruct (creq_form_valid request) eqn:Hvalid.
  - destruct (find (fun t => Z.eqb (idtopic t) id) (topics w)) as [topic|]
      eqn:Hfind.
    + rewrite (NewCommentView_post_stages env request forum slug_arg id
                 topic w) by assumption.
      rewrite delivery_run. cbv zeta.
      destruct (mail_called env request topic w);
        destruct (smtp_ok env _); destruct (broker_up env);
        cbn [andb negb snd]; unfold world_written; destruct w; split;
        reflexivity.
    + rewrite NewCommentView_post_unknown_topic by assumption. now split.
  - rewrite NewCommentView_post_invalid_form by assumption.
    destruct w. now split.
Qed.

(** X21.  A notification marked as a comment notification whose comment is gone
    renders as the empty string, while one not so marked whose topic is gone
    makes the filter fail: only the missing comment is caught. *)
Theorem dangling_notification_rendering (env : Env)
    (get_datetime_topic : Z -> string) (w : World) (n : Notification) :
  (is_comment n = true -> get_comment w (idobject n) = None ->
   get_item_notification env get_datetime_topic w n = Html "")
  /\ (is_comment n = false -> get_topic w (idobject n) = None ->
      get_item_notification env get_datetime_topic w n
      = Escapes Topic_DoesNotExist)
  /\ (get_item_notification env get_datetime_topic w n
      <> Escapes Comment_DoesNotExist).
Proof.
  unfold get_item_notification. repeat split.
  - intros Hk Hc. now rewrite Hk, Hc.
  - intros Hk Ht. now rewrite Hk, Ht.
  - destruct (is_comment n).
    + destruct (get_comment w (idobject n)) as [c|]; [|discriminate].
      destruct (get_topic w (topic_id c)) as [t|]; [|discriminate].
      unfold render_for. destruct (get_forum w (topic_forum t)); discriminate.
    + destruct (get_topic w (idobject n)) as [t|]; [|discriminate].
      unfold render_for. destruct (get_forum w (topic_forum t)); discriminate.
Qed.



(** X23.  Every notification a comment-create request writes renders, in the world
    the request leaves, as a link to the topic commented on, with the name
    and the photo of the posting user. *)
Theorem new_rows_render_the_comment (env : Env)
    (get_datetime_topic : Z -> string) (request : CommentRequest)
    (forum slug_arg : string) (id : Z) (topic : Topic) (forum_obj : Forum)
    (w : World) :
  creq_form_valid request = true ->
  find (fun t => Z.eqb (idtopic t) id) (topics w) = Some topic ->
  get_forum w (topic_forum topic) = Some forum_obj ->
  (forall c, In c (comments w) -> idcomment c <> comment_seq w) ->
  let w' := snd (NewCommentView_post env request forum slug_arg id w) in
  forall row, In row (rows_added w w') ->
    get_item_notification env get_datetime_topic w' row
    = Html (item_html
              ("/topic/" ++ forum_name forum_obj ++ "/" ++ slug topic ++ "/"
                 ++ str id ++ "/")%string
              (title topic)
              (get_photo_profile env (user_id (creq_user request)))
              (get_datetime_topic (creq_now request))
              (username (creq_user request))).
Proof.
  intros Hvalid Hfind Hforum Hfresh w' row Hrow.
  destruct (NewCommentView_post_summary env request forum slug_arg id topic w
              Hvalid Hfind) as (Hc & Hn & _).
  fold w' in Hn. unfold rows_added in Hrow.
  rewrite Hn, skipn_length_app in Hrow.
  assert (Hshape : is_comment row = true /\ idobject row = comment_seq w
                   /\ date row = creq_now request).
  { unfold rows_written in Hrow.
    destruct (loop_guard request topic w); [|destruct Hrow].
    apply in_map_iff in Hrow as [u [<- _]]. now cbn. }
  destruct Hshape as (Hk & Hid & Hdate).
  destruct (NewCommentView_post_keeps_topics env request forum slug_arg id w)
    as [Hf Ht].
  fold w' in Hc, Hf, Ht.
  assert (Hidt : idtopic topic = id).
  { apply find_some in Hfind as [_ H]. now apply Z.eqb_eq in H. }
  unfold get_item_notification, get_comment, get_topic, render_for, get_forum.
  rewrite Hk, Hid, Hc, Hf, Ht.
  rewrite find_none_app
    by (intros c Hin; apply Z.eqb_neq; now apply Hfresh).
  cbn [find comment_saved idcomment]. rewrite Z.eqb_refl.
  cbn [comment_saved topic_id comment_user]. rewrite Hidt, Hfind.
  unfold get_forum in Hforum. rewrite Hforum, Hdate, Hidt. reflexivity.
Qed.

Lemma new_rows_render_the_comment_witness :
  let request := mkCommentRequest carol "Nice" true 40 in
  let w' := snd (NewCommentView_post site_env request "general" "welcome" 7
                   one_comment_world) in
  get_item_notification site_env str w'
    (mkNotification 2 false 2 40 false true)
  = Html (item_html
            ("/topic/" ++ forum_name general ++ "/" ++ slug welcome ++ "/"
               ++ str 7 ++ "/")%string
            (title welcome)
            (get_photo_profile site_env (user_id (creq_user request)))
            (str (creq_now request))
            (username (creq_user request))).
Proof.
  apply (new_rows_render_the_comment site_env str
           (mkCommentRequest carol "Nice" true 40) "general" "welcome" 7
           welcome general one_comment_world);
    try reflexivity.
  - intros c [<-|[]]. cbn. lia.
  - vm_compute. now left.
Defined.

(** ** The strip of commenters *)

Lemma users_comments_loop_app (env : Env) (us us' : list Comment) :
  forall lista data,
    users_comments_loop env (us ++ us') lista data
    = users_comments_loop env us'
        (fst (users_comments_loop env us lista data))
        (snd (users_comments_loop env us lista data)).
Proof.
  induction us as [|u us IH]; intros lista data; [reflexivity|].
  cbn [app users_comments_loop].
  destruct (negb (existsb _ lista)); apply IH.
Qed.

(** Every user name met by the loop is in its list at the end. *)
Lemma users_comments_loop_names (env : Env) (us : list Comment) :
  forall lista data name,
    In name lista
    \/ In name (map (fun c => username (comment_user c)) us) ->
    existsb (String.eqb name) (fst (users_comments_loop env us lista data))
    = true.
Proof.
  induction us as [|u us IH]; intros lista data name Hin.
  - cbn. destruct Hin as [Hin|[]]. apply existsb_exists. exists name.
    split; [assumption | apply String.eqb_refl].
  - cbn [users_comments_loop].
    destruct (existsb (String.eqb (username (comment_user u))) lista) eqn:Hm;
      cbn [negb]; apply IH.
    + destruct Hin as [Hin|[<-|Hin]]; auto.
      left. apply existsb_exists in Hm as (x & Hx & He).
      apply String.eqb_eq in He. now subst x.
    + rewrite in_app_iff. cbn [In].
      destruct Hin as [Hin|[<-|Hin]]; auto.
Qed.

(** X24.  A further comment by someone who has commented on the topic before does
    not change the strip of commenters shown for the topic. *)
Theorem repeat_commenter_keeps_strip (env : Env) (request : CommentRequest)
    (forum slug_arg : string) (id : Z) (topic : Topic) (earlier : Comment)
    (w : World) :
  creq_form_valid request = true ->
  find (fun t => Z.eqb (idtopic t) id) (topics w) = Some topic ->
  In earlier (comments w) ->
  topic_id earlier = idtopic topic ->
  username (comment_user earlier) = username (creq_user request) ->
  let w' := snd (NewCommentView_post env request forum slug_arg id w) in
  get_tot_users_comments env topic w' = get_tot_users_comments env topic w.
Proof.
  intros Hvalid Hfind Hin Htopic Hname w'.
  destruct (NewCommentView_post_summary env request forum slug_arg id topic w
              Hvalid Hfind) as (Hc & _).
  fold w' in Hc. unfold get_tot_users_comments. rewrite Hc, filter_app.
  cbn [filter comment_saved topic_id]. rewrite Z.eqb_refl.
  set (us := filter (fun c => Z.eqb (topic_id c) (idtopic topic)) (comments w)).
  assert (Hus : In earlier us).
  { apply filter_In. split; [assumption|]. now apply Z.eqb_eq. }
  rewrite users_comments_loop_app, length_app.
  destruct us as [|u us'] eqn:Heq; [destruct Hus|]. rewrite <- Heq in *.
  replace (Nat.eqb (List.length us + List.length [comment_saved request topic w]) 0)
    with false by (symmetry; apply Nat.eqb_neq; cbn; lia).
  replace (Nat.eqb (List.length us) 0) with false
    by (symmetry; apply Nat.eqb_neq; rewrite Heq; cbn; lia).
  cbn [users_comments_loop comment_saved comment_user].
  rewrite users_comments_loop_names; [reflexivity|].
  right. apply in_map_iff. exists earlier. split; [|assumption].
  now symmetry.
Qed.

Lemma repeat_commenter_keeps_strip_witness :
  let request := mkCommentRequest bob "Again" true 40 in
  let w' := snd (NewCommentView_post site_env request "general" "welcome" 7
                   one_comment_world) in
  get_tot_users_comments site_env welcome w'
  = get_tot_users_comments site_env welcome one_comment_world.
Proof.
  apply (repeat_commenter_keeps_strip site_env
           (mkCommentRequest bob "Again" true 40) "general" "welcome" 7
           welcome (mkComment 1 7 bob "Hello" 20) one_comment_world);
    try reflexivity.
  now left.
Defined.
